(** * A page-level retrieval engine over three standards documents

    Shallow embedding of [src/backend/app.py]: the corpus builder
    ([extract_pages_text], [build_index]), the per-document similarity
    ranker ([api_search]) and the summary synthesizer
    ([synthesize_summary]), together with the Python, numpy and
    scikit-learn operations these functions call.

    Conventions.
    - A Python [str] is a [string]; a character is a code point below 256.
    - A Python [float] is an exact rational ([Q]); similarity scores are
      compared with [Qle] and [Qeq].
    - A Python [dict] is an insertion-ordered association list with unique
      keys ([Py.dict]); a Python [set] is a [gset], and, where the order in
      which the interpreter walks it matters, a duplicate-free list in an
      order left open ([SetOrder]).
    - A call that can raise returns a [Py.result]. *)

From Stdlib Require Import ZArith QArith Qround Lqa Ascii String DecimalString.
From stdpp Require Import base list strings gmap sorting.

Open Scope string_scope.
Open Scope list_scope.
Open Scope nat_scope.

(** * Python built-ins *)

Module Py.

Inductive Exception :=
| ValueError | TypeError | OverflowError | AttributeError | IndexError | KeyError
| NotFittedError.

(** The outcome of a call: a value, or a raised exception. *)
Inductive result (A : Type) :=
| Ok (a : A)
| Raise (e : Exception).
Arguments Ok {A} a.
Arguments Raise {A} e.

#[global] Instance result_ret : MRet result := fun A a => Ok a.
#[global] Instance result_bind : MBind result := fun A B f m =>
  match m with
  | Ok a => f a
  | Raise e => Raise e
  end.

(** ** Strings *)

(** [str.isspace] on one character. *)
Definition isspace (c : ascii) : bool :=
  let n := nat_of_ascii c in
  ((9 <=? n) && (n <=? 13)) || ((28 <=? n) && (n <=? 32)) || (n =? 133) || (n =? 160).

Definition flush (cur : list ascii) : list string :=
  match cur with
  | [] => []
  | _ => [string_of_list_ascii (rev cur)]
  end.

(** [split_from cur s]: the words of [s], [cur] being the word read so far
    (last character first). *)
Fixpoint split_from (cur : list ascii) (s : string) : list string :=
  match s with
  | EmptyString => flush cur
  | String c s' =>
      if isspace c then flush cur ++ split_from [] s'
      else split_from (c :: cur) s'
  end.

(** [s.split()]: the maximal runs of non-blank characters. *)
Definition split (s : string) : list string := split_from [] s.

(** [sep.join(l)]. *)
Definition join (sep : string) (l : list string) : string := String.concat sep l.

Fixpoint lstrip_by (p : ascii -> bool) (s : string) : string :=
  match s with
  | EmptyString => EmptyString
  | String c s' => if p c then lstrip_by p s' else s
  end.

Definition str_rev (s : string) : string :=
  string_of_list_ascii (rev (list_ascii_of_string s)).

Definition strip_by (p : ascii -> bool) (s : string) : string :=
  str_rev (lstrip_by p (str_rev (lstrip_by p s))).

(** [s.strip()]. *)
Definition strip (s : string) : string := strip_by isspace s.

(** [s.strip(chars)]. *)
Definition strip_chars (chars : string) (s : string) : string :=
  strip_by (fun c => existsb (Ascii.eqb c) (list_ascii_of_string chars)) s.

Definition lower_char (c : ascii) : ascii :=
  let n := nat_of_ascii c in
  if ((65 <=? n) && (n <=? 90)) || ((192 <=? n) && (n <=? 222) && negb (n =? 215))
  then ascii_of_nat (n + 32)
  else c.

Fixpoint lower (s : string) : string :=
  match s with
  | EmptyString => EmptyString
  | String c s' => String (lower_char c) (lower s')
  end.

(** [s[:n]] for [n >= 0]. *)
Fixpoint str_take (n : nat) (s : string) : string :=
  match n, s with
  | S n', String c s' => String c (str_take n' s')
  | _, _ => EmptyString
  end.

(** [str(n)] for a non-negative integer. *)
Definition str_of_nat (n : nat) : string := NilZero.string_of_uint (Nat.to_uint n).

(** ** Lists *)

(** [l[:k]] for any integer [k]: a negative bound counts from the end. *)
Definition slice_to {A} (k : Z) (l : list A) : list A :=
  if (0 <=? k)%Z then take (Z.to_nat k) l
  else take (length l - Z.to_nat (- k)) l.

(** [l[i]] for [i >= 0]. *)
Definition index {A} (l : list A) (i : nat) : result A :=
  match l !! i with
  | Some x => Ok x
  | None => Raise IndexError
  end.

Fixpoint insert_desc {A} (key : A -> nat) (x : A) (l : list A) : list A :=
  match l with
  | [] => [x]
  | y :: l' => if key x <? key y then y :: insert_desc key x l' else x :: y :: l'
  end.

(** [sorted(l, key=key, reverse=True)]: descending by key, elements with
    equal keys staying in their original order. *)
Definition sorted_reverse {A} (key : A -> nat) (l : list A) : list A :=
  foldr (insert_desc key) [] l.

(** ** Dictionaries, in insertion order *)

Abbreviation dict V := (list (string * V)) (only parsing).

(** [d[k] = v]: a present key keeps its place. *)
Fixpoint dict_set {V} (k : string) (v : V) (d : dict V) : dict V :=
  match d with
  | [] => [(k, v)]
  | (k', v') :: d' =>
      if String.eqb k k' then (k', v) :: d' else (k', v') :: dict_set k v d'
  end.

Fixpoint dict_find {V} (k : string) (d : dict V) : option V :=
  match d with
  | [] => None
  | (k', v') :: d' => if String.eqb k k' then Some v' else dict_find k d'
  end.

(** [d.get(k, default)]. *)
Definition dict_get {V} (k : string) (default : V) (d : dict V) : V :=
  match dict_find k d with
  | Some v => v
  | None => default
  end.

(** [d[k]]. *)
Definition dict_item {V} (k : string) (d : dict V) : result V :=
  match dict_find k d with
  | Some v => Ok v
  | None => Raise KeyError
  end.

(** ** Numbers *)

Definition digit_of (c : ascii) : option Z :=
  let n := nat_of_ascii c in
  if (48 <=? n) && (n <=? 57) then Some (Z.of_nat (n - 48)) else None.

(** Decimal digits, single underscores allowed between two digits. *)
Fixpoint parse_digits (acc : Z) (after_digit : bool) (s : string) : option Z :=
  match s with
  | EmptyString => if after_digit then Some acc else None
  | String c s' =>
      match digit_of c with
      | Some d => parse_digits (10 * acc + d) true s'
      | None =>
          if Ascii.eqb c "_" && after_digit then parse_digits acc false s' else None
      end
  end.

(** The blanks [int] skips around a number: the ASCII ones of C's
    [isspace], and the non-ASCII ones of [str.isspace]. The separators
    U+001C to U+001F, which [str.isspace] accepts, are not among them. *)
Definition int_space (c : ascii) : bool :=
  let n := nat_of_ascii c in
  ((9 <=? n) && (n <=? 13)) || (n =? 32) || (n =? 133) || (n =? 160).

Fixpoint digit_count (s : string) : nat :=
  match s with
  | EmptyString => 0
  | String c s' =>
      match digit_of c with
      | Some _ => S (digit_count s')
      | None => digit_count s'
      end
  end.

(** [sys.int_info.default_max_str_digits]. *)
Definition MAX_STR_DIGITS : nat := 4300.

(** [int(s)] for a string, base 10: blanks around, a sign, digits. A string
    with more than [MAX_STR_DIGITS] digits is rejected like one that is no
    number ([None] stands for [ValueError]). *)
Definition int_of_str (s : string) : option Z :=
  let t := strip_by int_space s in
  if MAX_STR_DIGITS <? digit_count t then None
  else
    match t with
    | String "+" r => parse_digits 0 false r
    | String "-" r => Z.opp <$> parse_digits 0 false r
    | _ => parse_digits 0 false t
    end.

(** [round(x)] to the nearest integer, halves to the even neighbour. *)
Definition round_half_even (q : Q) : Z :=
  let f := Qfloor q in
  match (q - inject_Z f ?= 1 # 2)%Q with
  | Lt => f
  | Gt => (f + 1)%Z
  | Eq => if Z.even f then f else (f + 1)%Z
  end.

(** [round(x, 4)]. *)
Definition round4 (q : Q) : Q := (round_half_even (q * 10000) # 10000)%Q.

End Py.

(** * numpy and scikit-learn *)

Module Np.

(** A dense vector over the fitted vocabulary. *)
Definition Vec : Type := list Q.

Fixpoint dot (u v : Vec) : Q :=
  match u, v with
  | x :: u', y :: v' => x * y + dot u' v'
  | _, _ => 0
  end.

(** [linear_kernel(qvec, matrix).flatten()]: one inner product per row. *)
Definition linear_kernel (qvec : Vec) (matrix : list Vec) : list Q :=
  map (dot qvec) matrix.

(** [a[idxs]] for an array of indices. *)
Definition take_at (a : list Q) (idxs : list nat) : Py.result (list Q) :=
  mapM (Py.index a) idxs.

(** The value an index of [argsort] stands for. *)
Definition key (v : list Q) (i : nat) : Q := nth i v 0%Q.

(** What [ndarray.argsort()] promises: the indices of the array, ordered
    by ascending value. The order of equal values is left open. *)
Record argsort_spec (argsort : list Q -> list nat) : Prop := {
  argsort_perm : forall v, argsort v ≡ₚ seq 0 (length v);
  argsort_sorted :
    forall v, StronglySorted (fun i j => (key v i <= key v j)%Q) (argsort v)
}.

(** Index [i] comes before index [j] in a stable ascending sort of [v]. *)
Definition before (v : list Q) (i j : nat) : Prop :=
  (key v i < key v j)%Q \/ ((key v i == key v j)%Q /\ i < j).

(** A stable [argsort]: equal values keep the order of their indices. *)
Definition stable (argsort : list Q -> list nat) : Prop :=
  forall v, StronglySorted (before v) (argsort v).

Definition Qltb (x y : Q) : bool := negb (Qle_bool y x).

(** One sort that keeps the promise, used to run the search on a concrete
    corpus: insertion of the indices one by one, the index [vi] moving left
    past every index whose value is larger ([sorted_rev] is the sorted part,
    last index first). It happens to be stable; numpy's default [kind] is
    not bound to order equal values the same way. *)
Fixpoint shift_in (v : list Q) (vi : nat) (sorted_rev : list nat) : list nat :=
  match sorted_rev with
  | [] => [vi]
  | k :: rest =>
      if Qltb (key v vi) (key v k) then k :: shift_in v vi rest
      else vi :: k :: rest
  end.

Definition insertion_argsort (v : list Q) : list nat :=
  rev (foldl (fun sorted_rev vi => shift_in v vi sorted_rev) [] (seq 0 (length v))).

End Np.

Module Sk.

(** A fitted [TfidfVectorizer]: [transform] of one text, as a vector over
    the fitted vocabulary. *)
Definition Fitted : Type := string -> Np.Vec.

(** The rows [TfidfVectorizer(norm='l2')] produces: no negative weight, and
    Euclidean length 1 unless every weight is 0. *)
Definition l2_normalized (u : Np.Vec) : Prop :=
  Forall (fun x => (0 <= x)%Q) u /\
  ((Np.dot u u == 1)%Q \/ Forall (fun x => (x == 0)%Q) u).

(** [c] is [cosine_similarity(u, v)]: the inner product divided by the two
    Euclidean lengths, a length of 0 counting as 1. *)
Definition is_cosine_similarity (u v : Np.Vec) (c : Q) : Prop :=
  exists nu nv : Q,
    (0 <= nu)%Q /\ (nu * nu == Np.dot u u)%Q /\
    (0 <= nv)%Q /\ (nv * nv == Np.dot v v)%Q /\
    (c * ((if Qeq_bool nu 0 then 1 else nu) * (if Qeq_bool nv 0 then 1 else nv))
     == Np.dot u v)%Q.

End Sk.

(** * Operating system *)

Module Os.

(** What [page.extract_text()] did on one page. *)
Inductive Extraction :=
| Text (s : string)
| NoText
| Failed.

(** [PdfReader(path).pages]. *)
Abbreviation Pdf := (list Extraction) (only parsing).

(** The files on disk: [None] where [os.path.exists] is false. *)
Definition FileSystem : Type := string -> option Pdf.

Definition ends_with_slash (s : string) : bool :=
  match Py.str_rev s with
  | String c _ => Ascii.eqb c "/"
  | EmptyString => false
  end.

Definition join2 (path b : string) : string :=
  match b with
  | String "/" _ => b
  | _ =>
      if (String.eqb path "" || ends_with_slash path)%bool then path +:+ b
      else path +:+ "/" +:+ b
  end.

(** [os.path.join(a, *p)]. *)
Definition path_join (a : string) (p : list string) : string := foldl join2 a p.

Fixpoint basename_from (cur : list ascii) (s : string) : string :=
  match s with
  | EmptyString => string_of_list_ascii (rev cur)
  | String c s' =>
      if Ascii.eqb c "/" then basename_from [] s' else basename_from (c :: cur) s'
  end.

(** [os.path.basename(p)]. *)
Definition basename (p : string) : string := basename_from [] p.

End Os.

(** * The application: [app.py] *)

Import Py.

(** ** Configuration *)

(** [SITE_PDF_FOLDER], [here] being [os.path.dirname(__file__)]. *)
Definition SITE_PDF_FOLDER (here : string) : string :=
  Os.path_join here [".."; "site"].

Definition PDF_FILES (here : string) : dict string :=
  [ ("PMBOK", Os.path_join (SITE_PDF_FOLDER here) ["PMBOK7.pdf"]);
    ("PRINCE2", Os.path_join (SITE_PDF_FOLDER here) ["PRINCE2.pdf"]);
    ("ISO21500", Os.path_join (SITE_PDF_FOLDER here) ["ISO21500.pdf"]) ].

Definition TOP_K : Z := 3.

(** The text handed to the vectorizer in place of a blank page. *)
Definition NO_TEXT : string := "[no-text-on-page]".

(** ** Data *)

(** An entry of [pages_data]. *)
Record PageEntry := {
  doc_key : string;
  page_no : nat;
  text : string
}.

(** The globals [build_index] assigns. [vectorizer] is [None] while the
    vectorizer is not fitted. *)
Record Index := {
  pages_data : list PageEntry;
  doc_page_index : dict (list nat);
  vectorizer : option Sk.Fitted;
  tfidf_matrix : option (list Np.Vec)
}.

(** One ranked page of a response. *)
Record Item := {
  item_page_no : nat;
  score : Q;
  text_snippet : string;
  pdf_link : string
}.

Inductive Body :=
| ErrorBody (error : string)
| SearchBody (query : string) (results : dict (list Item)) (summary : string).

(** A response: its JSON body and its HTTP status. *)
Definition Response : Type := Body * nat.

Definition InvalidRequest : Response := (ErrorBody "empty query", 400).
Definition IndexUnavailable : Response :=
  (ErrorBody "Index not built or PDFs missing.", 500).

(** A JSON value of the request body, as [json.loads] returns it. A number
    with a fraction or an exponent is a float: [JFloat] when it is finite,
    [JInfinity] for [Infinity], [-Infinity] and a literal too large for a
    double such as [1e999], [JNaN] for [NaN]. *)
Inductive JSON :=
| JNull
| JBool (b : bool)
| JInt (n : Z)
| JFloat (x : Q)
| JInfinity (negative : bool)
| JNaN
| JStr (s : string)
| JArray
| JObject.

(** The two keys [api_search] reads from the request's JSON object, [None]
    for a key that is not there. *)
Record Request := {
  query_field : option JSON;
  top_k_field : option JSON
}.

(** ** Helpers *)

(** [page.extract_text() or ""], an exception giving [""] as well. *)
Definition page_text (page : Os.Extraction) : string :=
  match page with
  | Os.Text s => s
  | Os.NoText | Os.Failed => ""
  end.

(** [" ".join(text.split())]. *)
Definition normalize (s : string) : string := join " " (split s).

Definition extract_pages_text (pdf : Os.Pdf) : list (nat * string) :=
  imap (fun i page => (i + 1, normalize (page_text page))) pdf.

(** [(text[:cap] + "...") if len(text) > cap else text]. *)
Definition excerpt (cap : nat) (s : string) : string :=
  if cap <? String.length s then str_take cap s +:+ "..." else s.

(** A string is true when it is not empty. *)
Definition truthy (s : string) : bool :=
  match s with
  | EmptyString => false
  | String _ _ => true
  end.

(** ** [synthesize_summary] *)

Definition long_words (s : string) : list string :=
  filter (fun t => 2 < String.length t) (split s).

Definition q_tokens (query : string) : gset string :=
  list_to_set (lower <$> long_words query).

Definition doc_tokens (text : string) : gset string :=
  list_to_set ((fun w => strip_chars ".,()" (lower w)) <$> long_words text).

Definition overlap (query text : string) : nat :=
  size (q_tokens query ∩ doc_tokens text).

Definition doc_scores (query : string) (snippets_for_doc : dict string) : dict nat :=
  foldl (fun scores '(doc, text) => dict_set doc (overlap query text) scores)
        [] snippets_for_doc.

Definition ranked (query : string) (snippets_for_doc : dict string) : list (string * nat) :=
  sorted_reverse snd (doc_scores query snippets_for_doc).

Definition NO_DOMINANT : string :=
  "No clear dominant document found; all provide contextual relevance.".

Definition relevance_line (ranked : list (string * nat)) : string :=
  match ranked with
  | (_, top) :: _ =>
      if 0 <? top
      then "Documents with strongest relevance: " +:+ join ", " (fst <$> ranked) +:+ "."
      else NO_DOMINANT
  | [] => NO_DOMINANT
  end.

Definition doc_line (snippets_for_doc : dict string) (doc : string) : list string :=
  let snippet := dict_get doc "" snippets_for_doc in
  if truthy (strip snippet) then [doc +:+ ": " +:+ excerpt 200 snippet] else [].

Definition summary_lines (query : string) (snippets_for_doc : dict string) : list string :=
  let ranked := ranked query snippets_for_doc in
  ["Comparative summary for query: “" +:+ query +:+ "”."]
  ++ [relevance_line ranked]
  ++ flat_map (fun '(doc, _) => doc_line snippets_for_doc doc) ranked
  ++ ["Note: Click on the document links to view the relevant PDF pages."].

Definition synthesize_summary (query : string) (snippets_for_doc : dict string) : string :=
  join " " (summary_lines query snippets_for_doc).

(** ** [build_index] and [api_search] *)

(** What the loops of [build_index] have gathered. *)
Record Corpus := {
  c_pages : list PageEntry;
  c_index : dict (list nat);
  c_texts : list string
}.

Definition vectorized_text (text : string) : string :=
  if truthy (strip text) then text else NO_TEXT.

Definition add_page (key : string)
    (acc : list PageEntry * list nat * list string) (page : nat * string)
    : list PageEntry * list nat * list string :=
  let '(pages, indices, texts) := acc in
  let '(pno, text) := page in
  (pages ++ [{| doc_key := key; page_no := pno; text := text |}],
   indices ++ [length pages],
   texts ++ [vectorized_text text]).

Definition add_document (fs : Os.FileSystem) (c : Corpus) (doc : string * string) : Corpus :=
  let '(key, path) := doc in
  match fs path with
  | None =>
      {| c_pages := c_pages c; c_index := dict_set key [] (c_index c);
         c_texts := c_texts c |}
  | Some pdf =>
      let '(pages, indices, texts) :=
        foldl (add_page key) (c_pages c, [], c_texts c) (extract_pages_text pdf) in
      {| c_pages := pages; c_index := dict_set key indices (c_index c);
         c_texts := texts |}
  end.

Definition collect (files : dict string) (fs : Os.FileSystem) : Corpus :=
  foldl (add_document fs) {| c_pages := []; c_index := []; c_texts := [] |} files.

(** [for x in l: s = f(s, x)], stopping at the first exception. *)
Fixpoint for_each {S A} (f : S -> A -> result S) (s : S) (l : list A) : result S :=
  match l with
  | [] => Ok s
  | x :: l' => s' ← f s x; for_each f s' l'
  end.

(** [data.get("query", "").strip()]. *)
Definition get_query (r : Request) : result string :=
  match query_field r with
  | None => Ok (strip "")
  | Some (JStr s) => Ok (strip s)
  | Some _ => Raise AttributeError
  end.

(** [int(x)] for a JSON value. *)
Definition py_int (x : JSON) : result Z :=
  match x with
  | JInt n => Ok n
  | JBool b => Ok (if b then 1 else 0)%Z
  | JFloat x => Ok (Z.quot (Qnum x) (Zpos (Qden x)))
  | JInfinity _ => Raise OverflowError
  | JNaN => Raise ValueError
  | JStr s =>
      match int_of_str s with
      | Some n => Ok n
      | None => Raise ValueError
      end
  | JNull | JArray | JObject => Raise TypeError
  end.

(** [int(data.get("top_k", TOP_K))]. *)
Definition get_top_k (r : Request) : result Z :=
  match top_k_field r with
  | None => Ok TOP_K
  | Some x => py_int x
  end.

Section Engine.

(** The configured documents, [TfidfVectorizer(stop_words="english",
    max_df=0.9).fit], which raises when no term is left, and
    [ndarray.argsort]. *)
Variable files : dict string.
Variable fit : list string -> result Sk.Fitted.
Variable argsort : list Q -> list nat.

(** [fit_transform(all_texts)] is [fit] followed by [transform]: one row per
    text. *)
Definition build_index (fs : Os.FileSystem) : result Index :=
  let c := collect files fs in
  match c_texts c with
  | [] =>
      Ok {| pages_data := c_pages c; doc_page_index := c_index c;
            vectorizer := None; tfidf_matrix := None |}
  | _ =>
      v ← fit (c_texts c);
      Ok {| pages_data := c_pages c; doc_page_index := c_index c;
            vectorizer := Some v; tfidf_matrix := Some (map v (c_texts c)) |}
  end.

(** The body of [for rank_pos in top_idx_order]. *)
Definition make_item (idx : Index) (pdf_filename : string)
    (idxs : list nat) (scores : list Q) (rank_pos : nat) : result Item :=
  page_idx ← index idxs rank_pos;
  score ← index scores rank_pos;
  entry ← index (pages_data idx) page_idx;
  mret {| item_page_no := page_no entry;
          score := round4 score;
          text_snippet := excerpt 600 (text entry);
          pdf_link := pdf_filename +:+ "#page=" +:+ str_of_nat (page_no entry) |}.

(** [scores.argsort()[::-1][:top_k]]. *)
Definition top_idx_order (top_k : Z) (scores : list Q) : list nat :=
  slice_to top_k (rev (argsort scores)).

(** The body of [for doc_key, indices in doc_page_index.items()]. *)
Definition search_document (idx : Index) (cosine_similarities : list Q) (top_k : Z)
    (acc : dict (list Item) * dict string) (doc : string * list nat)
    : result (dict (list Item) * dict string) :=
  let '(results, snippets_for_summary) := acc in
  let '(key, indices) := doc in
  match indices with
  | [] => mret (dict_set key [] results, snippets_for_summary)
  | _ =>
      scores ← Np.take_at cosine_similarities indices;
      path ← dict_item key files;
      items ← mapM (make_item idx (Os.basename path) indices scores)
                   (top_idx_order top_k scores);
      mret (dict_set key items results,
            dict_set key (join " " (text_snippet <$> items)) snippets_for_summary)
  end.

Definition api_search (idx : Index) (r : Request) : result Response :=
  query ← get_query r;
  top_k ← get_top_k r;
  if negb (truthy query) then mret InvalidRequest
  else
    match tfidf_matrix idx with
    | None => mret IndexUnavailable
    | Some matrix =>
        match vectorizer idx with
        | None => Raise NotFittedError
        | Some transform =>
            let qvec := transform query in
            let cosine_similarities := Np.linear_kernel qvec matrix in
            '(results, snippets_for_summary) ←
              for_each (search_document idx cosine_similarities top_k)
                       ([], []) (doc_page_index idx);
            mret (SearchBody query results
                    (synthesize_summary query snippets_for_summary), 200)
        end
    end.

End Engine.


(** ** [health] *)

(** The body of the health probe. *)
Record Health := {
  status : string;
  indexed_pages : nat
}.

Definition health (idx : Index) : Health * nat :=
  ({| status := "ok"; indexed_pages := length (pages_data idx) |}, 200).

(** ** [synthesize_summary] under a given order of the sets

    The interpreter keeps a [set] of strings in a hash table, and the hash of
    a string depends on the seed of the process: the order in which a set is
    walked differs from one run to the next. A [SetOrder] stands for [set(l)]
    under one seed: the elements of [l], each once, in the order in which the
    set would be walked. *)
Definition SetOrder : Type := list string -> list string.

Record set_order_spec (build : SetOrder) : Prop := {
  set_order_NoDup : forall l, NoDup (build l);
  set_order_elem : forall l x, x ∈ build l <-> x ∈ l
}.

(** [a & b]: the elements of the smaller set ([b] when the two have the
    same size) that are in the other one, as a new set. *)
Definition set_and (build : SetOrder) (a b : list string) : list string :=
  if length a <? length b
  then build (filter (fun x => x ∈ b) a)
  else build (filter (fun x => x ∈ a) b).

(** [len(q_tokens & tokens)], the sets built and walked in the order
    [build] gives. *)
Definition overlap_in (build : SetOrder) (query text : string) : nat :=
  let q_tokens := build (lower <$> long_words query) in
  let tokens := build ((fun w => strip_chars ".,()" (lower w)) <$> long_words text) in
  length (set_and build q_tokens tokens).

Definition doc_scores_in (build : SetOrder) (query : string)
    (snippets_for_doc : dict string) : dict nat :=
  foldl (fun scores '(doc, text) => dict_set doc (overlap_in build query text) scores)
        [] snippets_for_doc.

Definition ranked_in (build : SetOrder) (query : string)
    (snippets_for_doc : dict string) : list (string * nat) :=
  sorted_reverse snd (doc_scores_in build query snippets_for_doc).

Definition summary_lines_in (build : SetOrder) (query : string)
    (snippets_for_doc : dict string) : list string :=
  let ranked := ranked_in build query snippets_for_doc in
  ["Comparative summary for query: “" +:+ query +:+ "”."]
  ++ [relevance_line ranked]
  ++ flat_map (fun '(doc, _) => doc_line snippets_for_doc doc) ranked
  ++ ["Note: Click on the document links to view the relevant PDF pages."].

Definition synthesize_summary_in (build : SetOrder) (query : string)
    (snippets_for_doc : dict string) : string :=
  join " " (summary_lines_in build query snippets_for_doc).

(** Two orders a process can have: first occurrence first, and the same
    backwards. *)
Definition first_seen : SetOrder := remove_dups.
Definition last_seen : SetOrder := fun l => rev (remove_dups l).
(** * Vocabulary of the statements *)

(** Empty or whitespace-only. *)
Definition blank (s : string) : bool := forallb isspace (list_ascii_of_string s).

(** The dictionary [api_search] appends for the page [e] scored [s]. *)
Definition item_of (pdf_filename : string) (e : PageEntry) (s : Q) : Item :=
  {| item_page_no := page_no e;
     score := round4 s;
     text_snippet := excerpt 600 (text e);
     pdf_link := pdf_filename +:+ "#page=" +:+ str_of_nat (page_no e) |}.

Definition no_page : PageEntry := {| doc_key := ""; page_no := 0; text := "" |}.

(** The pages of one document as [build_index] stores them. *)
Definition doc_pages (fs : Os.FileSystem) (doc : string * string) : list PageEntry :=
  match fs doc.2 with
  | None => []
  | Some pdf =>
      (fun page => {| doc_key := doc.1; page_no := page.1; text := page.2 |})
        <$> extract_pages_text pdf
  end.

(** The corpus: the pages of every document, in the order of [files]. *)
Definition all_pages (fs : Os.FileSystem) (files : dict string) : list PageEntry :=
  files ≫= doc_pages fs.

(** The texts handed to the vectorizer, one per page of the corpus. *)
Definition all_texts (fs : Os.FileSystem) (files : dict string) : list string :=
  (fun e => vectorized_text (text e)) <$> all_pages fs files.

(** The position lists of the documents, the first page of the first
    document standing at [offset]. *)
Fixpoint layout (fs : Os.FileSystem) (offset : nat) (files : dict string)
    : dict (list nat) :=
  match files with
  | [] => []
  | doc :: rest =>
      let n := length (doc_pages fs doc) in
      (doc.1, seq offset n) :: layout fs (offset + n) rest
  end.

(** The similarity of every page to the query, by global position. *)
Definition similarities (idx : Index) (query : string) : list Q :=
  match vectorizer idx, tfidf_matrix idx with
  | Some transform, Some matrix => Np.linear_kernel (transform query) matrix
  | _, _ => []
  end.

(** The similarities of one document's pages, in page order. *)
Definition scores_at (cs : list Q) (indices : list nat) : list Q :=
  (fun p => nth p cs 0%Q) <$> indices.

(** The global positions a document's result list stands for, best first. *)
Definition ranking (argsort : list Q -> list nat) (cs : list Q) (k : Z)
    (indices : list nat) : list nat :=
  (fun rank_pos => nth rank_pos indices 0)
    <$> top_idx_order argsort k (scores_at cs indices).

Definition page_item (files : dict string) (idx : Index) (cs : list Q)
    (key : string) (p : nat) : Item :=
  item_of (Os.basename (dict_get key "" files)) (nth p (pages_data idx) no_page)
          (nth p cs 0%Q).

Definition doc_result (files : dict string) (argsort : list Q -> list nat)
    (idx : Index) (cs : list Q) (k : Z) (doc : string * list nat)
    : string * list Item :=
  (doc.1, page_item files idx cs doc.1 <$> ranking argsort cs k doc.2).

Definition doc_snippet (r : string * list Item) : string * string :=
  (r.1, join " " (text_snippet <$> r.2)).

Definition has_pages (doc : string * list nat) : bool :=
  match doc.2 with
  | [] => false
  | _ => true
  end.

(** The [results] and [snippets_for_summary] of a search. *)
Definition search_results (files : dict string) (argsort : list Q -> list nat)
    (idx : Index) (query : string) (k : Z) : dict (list Item) :=
  doc_result files argsort idx (similarities idx query) k <$> doc_page_index idx.

Definition search_snippets (files : dict string) (argsort : list Q -> list nat)
    (idx : Index) (query : string) (k : Z) : dict string :=
  (fun doc => doc_snippet (doc_result files argsort idx (similarities idx query) k doc))
    <$> filter has_pages (doc_page_index idx).

(** The largest overlap of the query with a document's excerpts, 0 when
    there is no document. *)
Definition top_score (query : string) (snippets_for_doc : dict string) : nat :=
  max_list (overlap query <$> snippets_for_doc.*2).


(** The documents whose overlap with the query is the largest. *)
Definition strongest (query : string) (snippets_for_doc : dict string) : list string :=
  (filter (fun d => overlap query d.2 = top_score query snippets_for_doc)
          snippets_for_doc).*1.

(** The overlap score of every document, in the order of the dictionary. *)
Definition overlaps (query : string) (snippets_for_doc : dict string) : list (string * nat) :=
  (fun d => (d.1, overlap query d.2)) <$> snippets_for_doc.

(** A word: not empty, and without whitespace. *)
Definition is_word (w : string) : bool :=
  truthy w && forallb (fun c => negb (isspace c)) (list_ascii_of_string w).

(** The number of pages [PdfReader] finds for a document, 0 when its file
    is missing. *)
Definition page_count (fs : Os.FileSystem) (doc : string * string) : nat :=
  match fs doc.2 with
  | Some pdf => length pdf
  | None => 0
  end.

(** The first, and the last, character of [s] satisfies [p]. *)
Definition starts_with (p : ascii -> bool) (s : string) : bool :=
  match s with
  | String c _ => p c
  | EmptyString => false
  end.

Definition ends_with (p : ascii -> bool) (s : string) : bool := starts_with p (str_rev s).

(** One of the characters [synthesize_summary] strips from a document's
    words. *)
Definition punctuation (c : ascii) : bool :=
  existsb (Ascii.eqb c) (list_ascii_of_string ".,()").

(** The three lines of a summary that names no document. *)
Definition bare_summary (query : string) : list string :=
  [ "Comparative summary for query: “" +:+ query +:+ "”.";
    NO_DOMINANT;
    "Note: Click on the document links to view the relevant PDF pages." ].

(** * A small corpus *)

Module Example.

Definition has_word (w t : string) : bool :=
  existsb (String.eqb w) (split (lower t)).

(** A fitted vectorizer over the vocabulary [scope], [risk]. *)
Definition transform : Sk.Fitted := fun t =>
  match has_word "scope" t, has_word "risk" t with
  | true, true => [3 # 5; 4 # 5]
  | true, false => [1; 0]
  | false, true => [0; 1]
  | false, false => [0; 0]
  end%Q.

Definition fit (texts : list string) : result Sk.Fitted := Ok transform.

Definition files : dict string := PDF_FILES "".

(** [PMBOK7.pdf] has four pages, the third without text; [PRINCE2.pdf] has
    two pages with the same text; [ISO21500.pdf] is missing. *)
Definition fs : Os.FileSystem := fun path =>
  if String.eqb path "../site/PMBOK7.pdf" then
    Some [Os.Text "project  scope management"; Os.Text "risk register template";
          Os.Failed; Os.Text " scope and risk"]
  else if String.eqb path "../site/PRINCE2.pdf" then
    Some [Os.Text "project scope management"; Os.Text "project scope management"]
  else None.

(** No file at all. *)
Definition no_files : Os.FileSystem := fun _ => None.

(** What [build_index] leaves behind on [fs] and on [no_files]. *)
Definition matrix : list Np.Vec := map transform (c_texts (collect files fs)).

Definition index : Index :=
  let c := collect files fs in
  {| pages_data := c_pages c; doc_page_index := c_index c;
     vectorizer := Some transform; tfidf_matrix := Some matrix |}.

Definition empty_index : Index :=
  {| pages_data := []; doc_page_index := c_index (collect files no_files);
     vectorizer := None; tfidf_matrix := None |}.

Definition request (query : string) (top_k : option JSON) : Request :=
  {| query_field := Some (JStr query); top_k_field := top_k |}.

End Example.
(** * Facts about the Python built-ins *)

Section py_facts.

Lemma mapM_result_fmap {A B} (f : A -> result B) (g : A -> B) (l : list A) :
  Forall (fun x => f x = Ok (g x)) l -> mapM f l = Ok (g <$> l).
Proof.
  induction 1 as [|x l Hx _ IH]; [done|].
  cbn. rewrite Hx. cbn. rewrite IH. done.
Qed.

Lemma slice_to_length_le {A} (k : Z) (l : list A) :
  (0 <= k)%Z -> length (slice_to k l) <= Z.to_nat k.
Proof.
  intros Hk. unfold slice_to.
  destruct (Z.leb_spec 0 k); [|lia].
  rewrite length_take. lia.
Qed.

Lemma slice_to_length_neg {A} (k : Z) (l : list A) :
  (k < 0)%Z -> length (slice_to k l) = length l - Z.to_nat (- k).
Proof.
  intros Hk. unfold slice_to.
  destruct (Z.leb_spec 0 k); [lia|].
  rewrite length_take. lia.
Qed.

Lemma slice_to_0 {A} (l : list A) : slice_to 0 l = [].
Proof. done. Qed.

Lemma slice_to_all {A} (k : Z) (l : list A) :
  (Z.of_nat (length l) <= k)%Z -> slice_to k l = l.
Proof.
  intros Hk. unfold slice_to.
  destruct (Z.leb_spec 0 k) as [_|Hneg]; [|lia].
  apply take_ge. lia.
Qed.

Lemma slice_to_prefix {A} (k : Z) (l : list A) :
  exists n, slice_to k l = take n l.
Proof. unfold slice_to. destruct (0 <=? k)%Z; eauto. Qed.

Lemma StronglySorted_take {A} (R : relation A) (n : nat) (l : list A) :
  StronglySorted R l -> StronglySorted R (take n l).
Proof.
  intros Hl. revert n. induction Hl as [|x l Hl IH Hx]; intros [|n]; cbn;
    try constructor; auto.
  apply Forall_take. done.
Qed.

Lemma StronglySorted_rev {A} (R : relation A) (l : list A) :
  StronglySorted R l -> StronglySorted (flip R) (rev l).
Proof.
  induction 1 as [|x l Hl IH Hx]; cbn; [constructor|].
  apply StronglySorted_app_2; [|done|repeat constructor].
  intros y z Hy Hz. apply list_elem_of_In, in_rev, list_elem_of_In in Hy.
  apply list_elem_of_singleton in Hz as ->.
  rewrite Forall_forall in Hx. by apply Hx.
Qed.

Lemma StronglySorted_map {A B} (R : relation A) (R' : relation B) (f : A -> B)
    (l : list A) :
  (forall x y, x ∈ l -> y ∈ l -> R x y -> R' (f x) (f y)) ->
  StronglySorted R l -> StronglySorted R' (f <$> l).
Proof.
  intros Hf Hl. induction Hl as [|x l Hl IH Hx]; cbn; constructor.
  - apply IH. intros ????. apply Hf; by constructor.
  - apply Forall_fmap, Forall_forall. intros y Hy. cbn.
    rewrite Forall_forall in Hx. apply Hf; [left|by right|by apply Hx].
Qed.

End py_facts.
Section rounding.

Lemma round_half_even_cases (q : Q) :
  let f := Qfloor q in
  (round_half_even q = f /\ (q - inject_Z f <= 1 # 2)%Q) \/
  (round_half_even q = (f + 1)%Z /\ (1 # 2 <= q - inject_Z f)%Q).
Proof.
  cbn. unfold round_half_even.
  destruct (q - inject_Z (Qfloor q) ?= 1 # 2)%Q eqn:E.
  - apply Qeq_alt in E. destruct (Z.even _); [left|right]; split; auto; lra.
  - apply Qlt_alt in E. left. split; auto; lra.
  - apply Qgt_alt in E. right. split; auto; lra.
Qed.

Lemma round_half_even_mono (q q' : Q) :
  (q <= q')%Q -> (round_half_even q <= round_half_even q')%Z.
Proof.
  intros Hq. pose proof (Qfloor_resp_le _ _ Hq) as Hf.
  destruct (Z.eq_dec (Qfloor q) (Qfloor q')) as [Heq|Hne].
  - unfold round_half_even. rewrite <- Heq.
    destruct (q - inject_Z (Qfloor q) ?= 1 # 2)%Q eqn:E;
      destruct (q' - inject_Z (Qfloor q) ?= 1 # 2)%Q eqn:E';
      repeat match goal with
             | H : (_ ?= _)%Q = Eq |- _ => apply Qeq_alt in H
             | H : (_ ?= _)%Q = Lt |- _ => apply Qlt_alt in H
             | H : (_ ?= _)%Q = Gt |- _ => apply Qgt_alt in H
             end;
      try destruct (Z.even _); try lia; exfalso; lra.
  - destruct (round_half_even_cases q) as [[-> _]|[-> _]];
      destruct (round_half_even_cases q') as [[-> _]|[-> _]]; lia.
Qed.

Lemma round4_mono (q q' : Q) : (q <= q')%Q -> (round4 q <= round4 q')%Q.
Proof.
  intros Hq. unfold round4, Qle. cbn.
  apply Z.mul_le_mono_nonneg_r; [lia|].
  apply round_half_even_mono. lra.
Qed.

Lemma round4_unit_interval (q : Q) :
  (0 <= q <= 1)%Q -> (0 <= round4 q <= 1)%Q.
Proof.
  intros [H0 H1]. split.
  - apply (round4_mono 0 q) in H0. eapply Qle_trans; [|exact H0]. by vm_compute.
  - apply (round4_mono q 1) in H1. eapply Qle_trans; [exact H1|]. by vm_compute.
Qed.

End rounding.

Section dict_facts.
Context {V : Type}.
Implicit Types (d : dict V) (k : string) (v : V).

Lemma dict_find_None k d : dict_find k d = None <-> k ∉ d.*1.
Proof.
  induction d as [|[k' v'] d IH]; cbn.
  - split; [intros _; apply not_elem_of_nil|done].
  - rewrite not_elem_of_cons. destruct (String.eqb_spec k k') as [->|Hne].
    + split; [done|]. intros [Hk _]. by destruct Hk.
    + rewrite IH. split; [by intros ?|by intros [_ ?]].
Qed.

Lemma dict_find_Some_elem k v d : dict_find k d = Some v -> (k, v) ∈ d.
Proof.
  induction d as [|[k' v'] d IH]; cbn; [done|].
  destruct (String.eqb_spec k k') as [->|]; intros H.
  - injection H as ->. left.
  - right. auto.
Qed.

Lemma dict_find_elem k v d : NoDup d.*1 -> (k, v) ∈ d -> dict_find k d = Some v.
Proof.
  induction d as [|[k' v'] d IH]; cbn; intros Hd Hin.
  - by apply elem_of_nil in Hin.
  - apply NoDup_cons in Hd as [Hk' Hd].
    apply elem_of_cons in Hin as [[= <- <-]|Hin].
    + by rewrite String.eqb_refl.
    + destruct (String.eqb_spec k k') as [->|]; [|auto].
      destruct Hk'. apply (list_elem_of_fmap_2 fst) in Hin. done.
Qed.

Lemma dict_set_fresh k v d : k ∉ d.*1 -> dict_set k v d = d ++ [(k, v)].
Proof.
  induction d as [|[k' v'] d IH]; cbn; [done|].
  rewrite not_elem_of_cons. intros [Hk Hd].
  destruct (String.eqb_spec k k'); [done|]. by rewrite IH.
Qed.

Lemma dict_find_app k d d' :
  dict_find k (d ++ d') =
  match dict_find k d with
  | Some v => Some v
  | None => dict_find k d'
  end.
Proof.
  induction d as [|[k' v'] d IH]; cbn; [done|].
  by destruct (String.eqb k k').
Qed.

End dict_facts.

Section string_facts.

Lemma split_from_blank (cur : list ascii) (s : string) :
  blank s = true -> split_from cur s = flush cur.
Proof.
  unfold blank. revert cur. induction s as [|c s IH]; intros cur; cbn; [done|].
  intros [Hc Hs]%andb_true_iff. rewrite Hc, IH by done. cbn. apply app_nil_r.
Qed.

Lemma normalize_blank (s : string) : blank s = true -> normalize s = "".
Proof.
  intros Hs. unfold normalize, split. by rewrite split_from_blank.
Qed.

End string_facts.

Section list_facts.
Context {A : Type}.

Lemma concat_NoDup_unique (ls : list (list A)) (i j : nat) (l l' : list A) (x : A) :
  NoDup (concat ls) ->
  ls !! i = Some l -> ls !! j = Some l' -> x ∈ l -> x ∈ l' -> i = j.
Proof.
  revert i j. induction ls as [|l0 ls IH]; intros i j Hnd Hi Hj Hx Hx'; [done|].
  cbn in Hnd. apply NoDup_app in Hnd as (_ & Hdisj & Hnd).
  assert (forall n l1, ls !! n = Some l1 -> x ∈ l1 -> x ∈ concat ls) as Hin.
  { intros n l1 Hn Hl1. apply list_elem_of_In, in_concat. exists l1.
    rewrite <- !list_elem_of_In. split; [|done]. by eapply list_elem_of_lookup_2. }
  destruct i as [|i], j as [|j]; cbn in Hi, Hj.
  - done.
  - injection Hi as ->. destruct (Hdisj x Hx). by eapply Hin.
  - injection Hj as ->. destruct (Hdisj x Hx'). by eapply Hin.
  - f_equal. by eapply IH.
Qed.

Lemma StronglySorted_lookup (R : relation A) (l : list A) (i j : nat) (x y : A) :
  StronglySorted R l -> i < j -> l !! i = Some x -> l !! j = Some y -> R x y.
Proof.
  intros Hl. revert i j. induction Hl as [|z l Hl IH Hz]; intros i j Hij Hi Hj; [done|].
  destruct j as [|j]; [lia|]. cbn in Hj. destruct i as [|i]; cbn in Hi.
  - injection Hi as ->. rewrite Forall_forall in Hz. apply Hz.
    by eapply list_elem_of_lookup_2.
  - apply (IH i j); [lia|done..].
Qed.

Lemma fmap_nth_seq (l : list A) (d : A) :
  (fun i => nth i l d) <$> seq 0 (length l) = l.
Proof.
  apply list_eq. intros i. rewrite list_lookup_fmap.
  destruct (decide (i < length l)) as [Hi|Hi].
  - rewrite lookup_seq_lt by done. cbn.
    destruct (lookup_lt_is_Some_2 l i Hi) as [x Hx]. rewrite Hx.
    by rewrite (nth_lookup_Some _ _ d x).
  - rewrite lookup_seq_ge, lookup_ge_None_2 by lia. done.
Qed.

Lemma seq_StronglySorted (start len : nat) : StronglySorted lt (seq start len).
Proof.
  revert start. induction len as [|len IH]; intros start; cbn; constructor.
  - apply IH.
  - apply Forall_seq. lia.
Qed.

End list_facts.

(** * Facts about the insertion sort of indices *)

Section np_facts.
Variable v : list Q.

Lemma Qltb_lt (x y : Q) : Np.Qltb x y = true <-> (x < y)%Q.
Proof.
  unfold Np.Qltb. rewrite negb_true_iff, <- not_true_iff_false, Qle_bool_iff.
  split; [apply Qnot_le_lt|apply Qlt_not_le].
Qed.

Lemma StronglySorted_weaken {A} (R R' : relation A) (l : list A) :
  (forall x y, R x y -> R' x y) -> StronglySorted R l -> StronglySorted R' l.
Proof.
  intros HR Hl. rewrite <- (list_fmap_id l).
  eapply StronglySorted_map; [|exact Hl]. intros x y _ _. apply HR.
Qed.

Lemma shift_in_perm (vi : nat) (l : list nat) : Np.shift_in v vi l ≡ₚ vi :: l.
Proof.
  induction l as [|k rest IH]; cbn; [done|].
  destruct (Np.Qltb _ _); [|done]. rewrite IH. apply Permutation_swap.
Qed.

Lemma shift_in_sorted (vi : nat) (l : list nat) :
  Forall (fun x => x < vi) l ->
  StronglySorted (flip (Np.before v)) l ->
  StronglySorted (flip (Np.before v)) (Np.shift_in v vi l).
Proof.
  intros Hlt Hl. induction Hl as [|k rest Hrest IH Hk]; cbn.
  - repeat constructor.
  - apply Forall_cons in Hlt as [Hkvi Hlt].
    destruct (Np.Qltb _ _) eqn:Hcmp.
    + apply Qltb_lt in Hcmp. constructor; [by apply IH|].
      rewrite shift_in_perm. constructor; [by left|done].
    + apply not_true_iff_false in Hcmp. rewrite Qltb_lt in Hcmp.
      apply Qnot_lt_le in Hcmp.
      assert (forall x, (Np.key v x <= Np.key v vi)%Q -> x < vi -> flip (Np.before v) vi x) as Hflip.
      { intros x Hx Hxvi. unfold flip, Np.before.
        destruct (Qlt_le_dec (Np.key v x) (Np.key v vi)); [by left|right].
        split; [by apply Qle_antisym|done]. }
      constructor; [by constructor|]. constructor; [by apply Hflip|].
      rewrite Forall_forall in Hk, Hlt. apply Forall_forall. intros x Hx.
      apply Hflip; [|by apply Hlt].
      destruct (Hk x Hx) as [Hxk|[Hxk _]]; [|rewrite Hxk]; lra.
Qed.

Lemma insertion_pass (n : nat) :
  let l := foldl (fun sorted_rev vi => Np.shift_in v vi sorted_rev) [] (seq 0 n) in
  l ≡ₚ seq 0 n /\ StronglySorted (flip (Np.before v)) l.
Proof.
  induction n as [|n [IHp IHs]]; cbn zeta.
  - split; [done|constructor].
  - rewrite seq_S, foldl_snoc. cbn. split.
    + rewrite shift_in_perm, IHp. apply Permutation_cons_append.
    + apply shift_in_sorted; [|done]. rewrite IHp. apply Forall_seq. lia.
Qed.

Lemma insertion_argsort_lex : StronglySorted (Np.before v) (Np.insertion_argsort v).
Proof.
  unfold Np.insertion_argsort.
  destruct (insertion_pass (length v)) as [_ Hs].
  apply StronglySorted_rev in Hs. exact Hs.
Qed.

Lemma insertion_argsort_perm : Np.insertion_argsort v ≡ₚ seq 0 (length v).
Proof.
  unfold Np.insertion_argsort.
  destruct (insertion_pass (length v)) as [Hp _].
  etrans; [|exact Hp]. symmetry. apply Permutation_rev.
Qed.

End np_facts.

Lemma insertion_argsort_stable : Np.stable Np.insertion_argsort.
Proof. intros v. apply insertion_argsort_lex. Qed.

Lemma stable_argsort_spec (argsort : list Q -> list nat) :
  (forall v, argsort v ≡ₚ seq 0 (length v)) ->
  Np.stable argsort -> Np.argsort_spec argsort.
Proof.
  intros Hperm Hstable. split; [done|]. intros v.
  eapply StronglySorted_weaken; [|apply Hstable].
  intros i j [Hlt|[Heq _]]; [|rewrite Heq]; lra.
Qed.

Lemma insertion_argsort_spec : Np.argsort_spec Np.insertion_argsort.
Proof.
  apply stable_argsort_spec; [apply insertion_argsort_perm|].
  apply insertion_argsort_stable.
Qed.

(** * Inner products of normalized vectors *)

Section sk_facts.

Lemma Qsquare_nonneg (x : Q) : (0 <= x * x)%Q.
Proof. nra. Qed.

Lemma dot_nonneg (u v : Np.Vec) :
  Forall (fun x => (0 <= x)%Q) u -> Forall (fun x => (0 <= x)%Q) v ->
  (0 <= Np.dot u v)%Q.
Proof.
  intros Hu. revert v. induction Hu as [|x u Hx Hu IH]; intros v Hv; cbn; [lra|].
  destruct Hv as [|y v Hy Hv]; [lra|]. specialize (IH v Hv).
  assert (0 <= x * y)%Q by (by apply Qmult_le_0_compat). lra.
Qed.

Lemma dot_zero_l (u v : Np.Vec) :
  Forall (fun x => (x == 0)%Q) u -> (Np.dot u v == 0)%Q.
Proof.
  intros Hu. revert v. induction Hu as [|x u Hx Hu IH]; intros v; cbn; [lra|].
  destruct v as [|y v]; [lra|]. rewrite IH, Hx. lra.
Qed.

Lemma dot_self_nonneg (u : Np.Vec) : (0 <= Np.dot u u)%Q.
Proof.
  induction u as [|x u IH]; cbn; [lra|]. pose proof (Qsquare_nonneg x). lra.
Qed.

(** Twice the inner product is at most the sum of the squared lengths. *)
Lemma dot_le_squares (u v : Np.Vec) :
  (2 * Np.dot u v <= Np.dot u u + Np.dot v v)%Q.
Proof.
  revert v. induction u as [|x u IH]; intros v; cbn.
  - pose proof (dot_self_nonneg v). lra.
  - destruct v as [|y v]; cbn.
    + pose proof (dot_self_nonneg u). pose proof (Qsquare_nonneg x). lra.
    + specialize (IH v). pose proof (Qsquare_nonneg (x - y)) as Hsq.
      assert ((x - y) * (x - y) == x * x - 2 * (x * y) + y * y)%Q as Heq by ring.
      rewrite Heq in Hsq. lra.
Qed.

Lemma l2_normalized_length (u : Np.Vec) :
  Sk.l2_normalized u -> (Np.dot u u <= 1)%Q.
Proof.
  intros [_ [Hone|Hzero]]; [lra|]. rewrite (dot_zero_l u u Hzero). lra.
Qed.

(** On normalized vectors the linear kernel is the cosine similarity, and
    it lies between 0 and 1. *)
Lemma linear_kernel_cosine (u v : Np.Vec) :
  Sk.l2_normalized u -> Sk.l2_normalized v ->
  Sk.is_cosine_similarity u v (Np.dot u v) /\ (0 <= Np.dot u v <= 1)%Q.
Proof.
  intros Hu Hv. split.
  - assert (forall w, Sk.l2_normalized w ->
              exists n : Q, (0 <= n)%Q /\ (n * n == Np.dot w w)%Q /\
                (if Qeq_bool n 0 then 1%Q else n) = 1%Q) as Hnorm.
    { intros w [_ [Hone|Hzero]].
      - exists 1%Q. rewrite Hone. split; [lra|]. split; [lra|done].
      - exists 0%Q. rewrite (dot_zero_l w w Hzero). split; [lra|]. split; [lra|done]. }
    destruct (Hnorm u Hu) as (nu & Hnu & Hsq_u & Hnu1).
    destruct (Hnorm v Hv) as (nv & Hnv & Hsq_v & Hnv1).
    exists nu, nv. repeat (split; [done|]). rewrite Hnu1, Hnv1. lra.
  - split; [apply dot_nonneg; [apply Hu|apply Hv]|].
    pose proof (dot_le_squares u v).
    pose proof (l2_normalized_length u Hu). pose proof (l2_normalized_length v Hv). lra.
Qed.

End sk_facts.

(** * The corpus builder *)

Section build_facts.
Variable fs : Os.FileSystem.

Lemma foldl_add_page key pages indices texts (ps : list (nat * string)) :
  foldl (add_page key) (pages, indices, texts) ps =
  (pages ++ ((fun page => {| doc_key := key; page_no := page.1; text := page.2 |}) <$> ps),
   indices ++ seq (length pages) (length ps),
   texts ++ ((fun page => vectorized_text page.2) <$> ps)).
Proof.
  revert pages indices texts.
  induction ps as [|[pno t] ps IH]; intros pages indices texts; cbn.
  - by rewrite !app_nil_r.
  - rewrite IH, length_app, <- !app_assoc. cbn.
    by rewrite Nat.add_1_r.
Qed.

Lemma add_document_fresh (c : Corpus) (doc : string * string) :
  doc.1 ∉ (c_index c).*1 ->
  add_document fs c doc =
  {| c_pages := c_pages c ++ doc_pages fs doc;
     c_index := c_index c ++ [(doc.1, seq (length (c_pages c)) (length (doc_pages fs doc)))];
     c_texts := c_texts c ++ ((fun e => vectorized_text (text e)) <$> doc_pages fs doc) |}.
Proof.
  destruct doc as [key path]. cbn. intros Hfresh.
  unfold add_document, doc_pages. cbn. destruct (fs path) as [pdf|]; cbn.
  - rewrite foldl_add_page, dict_set_fresh by done. cbn.
    rewrite length_fmap, <- list_fmap_compose. done.
  - rewrite dict_set_fresh, !app_nil_r by done. done.
Qed.

Lemma foldl_add_document (c : Corpus) (files : dict string) :
  NoDup files.*1 ->
  (forall k, k ∈ files.*1 -> k ∉ (c_index c).*1) ->
  foldl (add_document fs) c files =
  {| c_pages := c_pages c ++ all_pages fs files;
     c_index := c_index c ++ layout fs (length (c_pages c)) files;
     c_texts := c_texts c ++ ((fun e => vectorized_text (text e)) <$> all_pages fs files) |}.
Proof.
  revert c. induction files as [|doc files IH]; intros c Hnd Hfresh; cbn.
  - rewrite !app_nil_r. by destruct c.
  - cbn in Hnd. apply NoDup_cons in Hnd as [Hdoc Hnd].
    rewrite add_document_fresh by (apply Hfresh; left).
    rewrite IH; cbn; [|done|].
    + rewrite length_app, fmap_app, <- !app_assoc. done.
    + intros k Hk. rewrite fmap_app, elem_of_app. cbn.
      rewrite list_elem_of_singleton. intros [Hin| ->]; [|done].
      revert Hin. apply Hfresh. by right.
Qed.

Lemma collect_eq (files : dict string) :
  NoDup files.*1 ->
  collect files fs =
  {| c_pages := all_pages fs files;
     c_index := layout fs 0 files;
     c_texts := all_texts fs files |}.
Proof.
  intros Hnd. unfold collect. rewrite foldl_add_document; [done..|].
  intros k _. cbn. apply not_elem_of_nil.
Qed.

Lemma all_pages_cons doc (files : dict string) :
  all_pages fs (doc :: files) = doc_pages fs doc ++ all_pages fs files.
Proof. done. Qed.

Lemma all_pages_app (files files' : dict string) :
  all_pages fs (files ++ files') = all_pages fs files ++ all_pages fs files'.
Proof. apply bind_app. Qed.

Lemma layout_app offset (files files' : dict string) :
  layout fs offset (files ++ files') =
  layout fs offset files ++ layout fs (offset + length (all_pages fs files)) files'.
Proof.
  revert offset. induction files as [|doc files IH]; intros offset.
  - cbn. by rewrite Nat.add_0_r.
  - rewrite all_pages_cons. cbn. rewrite IH, length_app, Nat.add_assoc. done.
Qed.

Lemma layout_keys offset (files : dict string) :
  (layout fs offset files).*1 = files.*1.
Proof.
  revert offset. induction files as [|doc files IH]; intros offset; cbn; [done|].
  by rewrite IH.
Qed.

Lemma layout_concat offset (files : dict string) :
  concat (layout fs offset files).*2 = seq offset (length (all_pages fs files)).
Proof.
  revert offset. induction files as [|doc files IH]; intros offset; [done|].
  rewrite all_pages_cons. cbn. rewrite IH, length_app, seq_app. done.
Qed.

(** The position list of a document, and the stretch of the corpus it
    stands for. *)
Lemma layout_find (files : dict string) key path :
  NoDup files.*1 ->
  (key, path) ∈ files ->
  exists before after,
    files = before ++ (key, path) :: after /\
    dict_find key (layout fs 0 files) =
      Some (seq (length (all_pages fs before)) (length (doc_pages fs (key, path)))) /\
    all_pages fs files =
      all_pages fs before ++ doc_pages fs (key, path) ++ all_pages fs after.
Proof.
  intros Hnd Hin. apply list_elem_of_split in Hin as (before & after & ->).
  exists before, after. split; [done|]. split.
  - rewrite layout_app, dict_find_app. cbn.
    rewrite fmap_app in Hnd. apply NoDup_app in Hnd as (_ & Hfresh & _).
    assert (dict_find key (layout fs 0 before) = None) as ->.
    { apply dict_find_None. rewrite layout_keys. intros Hk.
      apply (Hfresh _ Hk). left. }
    by rewrite String.eqb_refl.
  - by rewrite all_pages_app, all_pages_cons.
Qed.

Lemma layout_elem offset (files : dict string) key positions :
  (key, positions) ∈ layout fs offset files ->
  exists before path after,
    files = before ++ (key, path) :: after /\
    positions = seq (offset + length (all_pages fs before))
                    (length (doc_pages fs (key, path))).
Proof.
  revert offset. induction files as [|[k p] files IH]; intros offset; cbn.
  - intros H. by apply elem_of_nil in H.
  - intros [[= -> ->]|Hin]%elem_of_cons.
    + exists [], p, files. cbn. by rewrite Nat.add_0_r.
    + apply IH in Hin as (before & path & after & -> & ->).
      exists ((k, p) :: before), path, after. split; [done|].
      by rewrite all_pages_cons, length_app, Nat.add_assoc.
Qed.

Lemma doc_pages_lookup key path pdf i e :
  fs path = Some pdf ->
  doc_pages fs (key, path) !! i = Some e <->
  exists page, pdf !! i = Some page /\
    e = {| doc_key := key; page_no := i + 1; text := normalize (page_text page) |}.
Proof.
  intros Hfs. unfold doc_pages, extract_pages_text. cbn. rewrite Hfs.
  rewrite list_lookup_fmap, list_lookup_imap.
  destruct (pdf !! i) as [page|]; cbn.
  - split; [intros [= <-]; eauto|]. by intros (? & [= <-] & ->).
  - split; [done|]. by intros (? & ? & _).
Qed.

Lemma doc_pages_length key path pdf :
  fs path = Some pdf -> length (doc_pages fs (key, path)) = length pdf.
Proof.
  intros Hfs. unfold doc_pages, extract_pages_text. cbn. rewrite Hfs.
  by rewrite length_fmap, length_imap.
Qed.

Lemma doc_pages_missing key path :
  fs path = None -> doc_pages fs (key, path) = [].
Proof. intros Hfs. unfold doc_pages. cbn. by rewrite Hfs. Qed.

Lemma doc_pages_key doc e : e ∈ doc_pages fs doc -> doc_key e = doc.1.
Proof.
  unfold doc_pages. destruct (fs doc.2); [|by intros ?%elem_of_nil].
  intros (page & -> & _)%list_elem_of_fmap. done.
Qed.

Lemma doc_pages_page_no doc i e :
  doc_pages fs doc !! i = Some e -> page_no e = i + 1.
Proof.
  unfold doc_pages, extract_pages_text.
  destruct (fs doc.2) as [pdf|]; [|by rewrite lookup_nil].
  rewrite list_lookup_fmap, list_lookup_imap.
  destruct (_ !! i); cbn; [|done]. by intros [= <-].
Qed.

End build_facts.

Section build_index_facts.
Variable files : dict string.
Variable fit : list string -> result Sk.Fitted.
Variable fs : Os.FileSystem.
Hypothesis files_nodup : NoDup files.*1.

Lemma build_index_Ok idx :
  build_index files fit fs = Ok idx ->
  pages_data idx = all_pages fs files /\
  doc_page_index idx = layout fs 0 files /\
  match all_pages fs files with
  | [] => vectorizer idx = None /\ tfidf_matrix idx = None
  | _ :: _ =>
      exists v, fit (all_texts fs files) = Ok v /\
        vectorizer idx = Some v /\
        tfidf_matrix idx = Some (v <$> all_texts fs files)
  end.
Proof.
  unfold build_index. rewrite collect_eq by done. cbn. unfold all_texts.
  destruct (all_pages fs files) as [|e pages] eqn:Hpages; cbn.
  - by intros [= <-].
  - destruct (fit _) as [v|] eqn:Hfit; cbn; [|done].
    intros [= <-]. cbn. do 2 (split; [done|]). by exists v.
Qed.

(** The build goes through exactly when the vectorizer can be fitted. *)
Lemma build_index_fitted v :
  fit (all_texts fs files) = Ok v ->
  exists idx, build_index files fit fs = Ok idx.
Proof.
  intros Hfit. unfold build_index. rewrite collect_eq by done. cbn.
  fold (all_texts fs files). rewrite Hfit. destruct (all_texts fs files); eauto.
Qed.

End build_index_facts.

(** * The ranker *)

Section search_facts.
Variable files : dict string.
Variable argsort : list Q -> list nat.
Hypothesis argsort_ok : Np.argsort_spec argsort.

Lemma index_nth {A} (l : list A) (i : nat) (d : A) :
  i < length l -> index l i = Ok (nth i l d).
Proof.
  intros Hi. unfold index.
  destruct (lookup_lt_is_Some_2 l i Hi) as [x Hx]. rewrite Hx.
  by rewrite (nth_lookup_Some _ _ d x).
Qed.

Lemma take_at_nth (cs : list Q) (indices : list nat) :
  Forall (fun p => p < length cs) indices ->
  Np.take_at cs indices = Ok ((fun p => nth p cs 0%Q) <$> indices).
Proof.
  intros Hin. apply mapM_result_fmap.
  eapply Forall_impl; [exact Hin|]. intros p Hp. by apply index_nth.
Qed.

Lemma argsort_elem (v : list Q) (i : nat) : i ∈ argsort v <-> i < length v.
Proof.
  rewrite (Np.argsort_perm _ argsort_ok v), elem_of_seq. lia.
Qed.

Lemma argsort_length (v : list Q) : length (argsort v) = length v.
Proof. by rewrite (Np.argsort_perm _ argsort_ok v), length_seq. Qed.

Lemma top_idx_order_elem k (scores : list Q) (i : nat) :
  i ∈ top_idx_order argsort k scores -> i < length scores.
Proof.
  unfold top_idx_order. destruct (slice_to_prefix k (rev (argsort scores))) as [n ->].
  intros Hi%subseteq_take.
  apply list_elem_of_In, in_rev, list_elem_of_In in Hi. by apply argsort_elem.
Qed.

Lemma make_item_eq idx cs key path (indices : list nat) (rank_pos : nat) :
  dict_find key files = Some path ->
  Forall (fun p => p < length cs /\ p < length (pages_data idx)) indices ->
  rank_pos < length indices ->
  make_item idx (Os.basename path) indices ((fun p => nth p cs 0%Q) <$> indices) rank_pos
  = Ok (page_item files idx cs key (nth rank_pos indices 0)).
Proof.
  intros Hpath Hin Hrp. unfold make_item.
  rewrite (index_nth indices rank_pos 0) by done. cbn.
  rewrite (index_nth _ rank_pos 0%Q) by (by rewrite length_fmap). cbn.
  assert (nth rank_pos indices 0 ∈ indices) as Hp.
  { apply list_elem_of_In, nth_In. done. }
  rewrite Forall_forall in Hin. destruct (Hin _ Hp) as [_ Hpages].
  rewrite (index_nth _ _ no_page) by done. cbn.
  unfold page_item, item_of, dict_get. rewrite Hpath.
  rewrite (nth_indep _ 0%Q (nth 0 cs 0%Q)) by (by rewrite length_fmap).
  rewrite (map_nth (fun p => nth p cs 0%Q)). done.
Qed.

Lemma search_document_eq idx cs k results snippets key path (indices : list nat) :
  dict_find key files = Some path ->
  Forall (fun p => p < length cs /\ p < length (pages_data idx)) indices ->
  search_document files argsort idx cs k (results, snippets) (key, indices) =
  Ok (dict_set key (doc_result files argsort idx cs k (key, indices)).2 results,
      if has_pages (key, indices)
      then dict_set key (doc_snippet (doc_result files argsort idx cs k (key, indices))).2
                    snippets
      else snippets).
Proof.
  intros Hpath Hin. unfold search_document, doc_result, doc_snippet, ranking.
  destruct indices as [|p0 indices'].
  - cbn. unfold top_idx_order.
    assert (argsort [] = []) as ->.
    { apply Permutation_nil_r. apply (Np.argsort_perm _ argsort_ok []). }
    cbn. destruct (slice_to_prefix k (@nil nat)) as [n ->].
    by rewrite take_nil.
  - cbv beta iota. change (has_pages (key, p0 :: indices')) with true.
    cbv beta iota. cbn [fst snd].
    remember (p0 :: indices') as indices eqn:Hindices. clear Hindices.
    rewrite take_at_nth by (eapply Forall_impl; [exact Hin|]; by intros ? [? _]).
    cbn. unfold dict_item. rewrite Hpath. cbn.
    rewrite (mapM_result_fmap _
      (fun rank_pos => page_item files idx cs key (nth rank_pos indices 0))).
    + cbn. by rewrite <- !list_fmap_compose.
    + apply Forall_forall. intros rp Hrp%top_idx_order_elem.
      rewrite length_fmap in Hrp. by apply make_item_eq.
Qed.

Lemma for_each_search_document idx cs k results snippets (docs : dict (list nat)) :
  NoDup docs.*1 ->
  (forall key, key ∈ docs.*1 -> (key ∉ results.*1) /\ (key ∉ snippets.*1)) ->
  (forall key, key ∈ docs.*1 -> is_Some (dict_find key files)) ->
  Forall (fun doc => Forall (fun p => p < length cs /\ p < length (pages_data idx)) doc.2)
         docs ->
  for_each (search_document files argsort idx cs k) (results, snippets) docs =
  Ok (results ++ (doc_result files argsort idx cs k <$> docs),
      snippets ++ ((fun doc => doc_snippet (doc_result files argsort idx cs k doc))
                     <$> filter has_pages docs)).
Proof.
  revert results snippets.
  induction docs as [|[key indices] docs IH]; intros results snippets Hnd Hfresh Hfiles Hin.
  - cbn. by rewrite !app_nil_r.
  - cbn in Hnd. apply NoDup_cons in Hnd as [Hkey Hnd].
    apply Forall_cons in Hin as [Hin Hins].
    destruct (Hfiles key) as [path Hpath]; [left|].
    destruct (Hfresh key) as [Hres Hsnip]; [left|].
    rewrite filter_cons.
    cbn [for_each]. rewrite (search_document_eq _ _ _ _ _ _ path) by done.
    cbn [mbind result_bind snd]. rewrite dict_set_fresh by done.
    destruct (decide (has_pages (key, indices))) as [Hhas|Hhas].
    + apply Is_true_true in Hhas. rewrite Hhas, dict_set_fresh by done.
      rewrite IH; [by rewrite <- !app_assoc|done|..|done].
      * intros key' Hkey'. rewrite !fmap_app, !elem_of_app. cbn.
        rewrite !list_elem_of_singleton.
        destruct (Hfresh key') as [??]; [by right|].
        split; intros [?| ->]; done.
      * intros key' Hkey'. apply Hfiles. by right.
    + apply Is_true_false in Hhas. rewrite Hhas.
      rewrite IH; [by rewrite <- !app_assoc|done|..|done].
      * intros key' Hkey'. rewrite !fmap_app, !elem_of_app. cbn.
        rewrite !list_elem_of_singleton.
        destruct (Hfresh key') as [??]; [by right|].
        split; [intros [?| ->]; done|done].
      * intros key' Hkey'. apply Hfiles. by right.
Qed.

End search_facts.

(** * Searching a built index *)

Section api_facts.
Variable files : dict string.
Variable fit : list string -> result Sk.Fitted.
Variable argsort : list Q -> list nat.
Variable fs : Os.FileSystem.
Hypothesis files_nodup : NoDup files.*1.
Hypothesis argsort_ok : Np.argsort_spec argsort.

Lemma layout_in_range key positions p :
  (key, positions) ∈ layout fs 0 files -> p ∈ positions ->
  p < length (all_pages fs files).
Proof.
  intros Hdoc Hp.
  assert (p ∈ concat (layout fs 0 files).*2) as Hc.
  { apply list_elem_of_In, in_concat. exists positions.
    rewrite <- !list_elem_of_In. split; [|done].
    by apply (list_elem_of_fmap_2 snd) in Hdoc. }
  rewrite layout_concat, elem_of_seq in Hc. lia.
Qed.

Lemma built_similarities_length idx query :
  build_index files fit fs = Ok idx ->
  pages_data idx <> [] ->
  length (similarities idx query) = length (pages_data idx).
Proof.
  intros (Hpages & _ & Hvec)%build_index_Ok Hne; [|done].
  rewrite Hpages in *. destruct (all_pages fs files) as [|e pages] eqn:Hall; [done|].
  destruct Hvec as (v & _ & Hv & Hm). unfold similarities, Np.linear_kernel.
  rewrite Hv, Hm. unfold all_texts. rewrite Hall. by rewrite length_map, !length_fmap.
Qed.

Lemma api_search_Ok idx r query k :
  build_index files fit fs = Ok idx ->
  pages_data idx <> [] ->
  get_query r = Ok query ->
  truthy query = true ->
  get_top_k r = Ok k ->
  api_search files argsort idx r =
  Ok (SearchBody query (search_results files argsort idx query k)
        (synthesize_summary query (search_snippets files argsort idx query k)),
      200).
Proof.
  intros Hbuild Hne Hq Htruthy Hk.
  pose proof (built_similarities_length idx query Hbuild Hne) as Hlen.
  destruct (build_index_Ok _ _ _ files_nodup _ Hbuild) as (Hpages & Hindex & Hvec).
  unfold api_search. rewrite Hq, Hk. cbn. rewrite Htruthy. cbn.
  rewrite Hpages in Hne. destruct (all_pages fs files) as [|e pages] eqn:Hall; [done|].
  destruct Hvec as (v & _ & Hv & Hm). rewrite Hm, Hv.
  assert (Np.linear_kernel (v query) (v <$> all_texts fs files) = similarities idx query)
    as -> by (unfold similarities; by rewrite Hv, Hm).
  rewrite (for_each_search_document files argsort argsort_ok).
  - done.
  - rewrite Hindex, layout_keys. done.
  - intros key _. split; apply not_elem_of_nil.
  - intros key. rewrite Hindex, layout_keys. intros Hkey.
    destruct (dict_find key files) eqn:Hfind; [done|].
    by apply dict_find_None in Hfind.
  - apply Forall_forall. intros [key positions] Hdoc. cbn.
    apply Forall_forall. intros p Hp. rewrite Hindex in Hdoc.
    pose proof (layout_in_range _ _ _ Hdoc Hp) as Hlt.
    rewrite Hlen, Hpages, <- Hall. done.
Qed.

Lemma api_search_no_pages idx r query k :
  build_index files fit fs = Ok idx ->
  pages_data idx = [] ->
  get_query r = Ok query ->
  truthy query = true ->
  get_top_k r = Ok k ->
  api_search files argsort idx r = Ok IndexUnavailable.
Proof.
  intros (Hpages & _ & Hvec)%build_index_Ok Hnil Hq Htruthy Hk; [|done].
  rewrite Hpages in Hnil. rewrite Hnil in Hvec. destruct Hvec as [_ Hm].
  unfold api_search. rewrite Hq, Hk. cbn. rewrite Htruthy. cbn. by rewrite Hm.
Qed.

End api_facts.

(** * The index after a build *)

Section build_claims.
Variable files : dict string.
Variable fit : list string -> result Sk.Fitted.
Variable fs : Os.FileSystem.
Hypothesis files_nodup : NoDup files.*1.

Lemma built_page_lookup idx key positions i p :
  build_index files fit fs = Ok idx ->
  dict_find key (doc_page_index idx) = Some positions ->
  positions !! i = Some p ->
  exists path e,
    (key, path) ∈ files /\
    doc_pages fs (key, path) !! i = Some e /\
    pages_data idx !! p = Some e.
Proof.
  intros (Hpages & Hindex & _)%build_index_Ok Hfind Hp; [|done].
  rewrite Hindex in Hfind. apply dict_find_Some_elem, layout_elem in Hfind
    as (before & path & after & Hfiles & ->).
  apply lookup_seq in Hp as [-> Hi]. exists path.
  destruct (lookup_lt_is_Some_2 _ _ Hi) as [e He]. exists e.
  split; [rewrite Hfiles; apply elem_of_app; right; left|]. split; [done|].
  rewrite Hpages, Hfiles, all_pages_app, all_pages_cons. cbn.
  rewrite lookup_app_r by lia. rewrite lookup_app_l by lia.
  rewrite <- He. f_equal. lia.
Qed.

(** The page of a document behind an entry of the corpus. *)
Lemma built_entry_source idx key positions p e :
  build_index files fit fs = Ok idx ->
  dict_find key (doc_page_index idx) = Some positions ->
  p ∈ positions ->
  pages_data idx !! p = Some e ->
  exists path (pdf : Os.Pdf) i page,
    (key, path) ∈ files /\ fs path = Some pdf /\
    positions !! i = Some p /\ pdf !! i = Some page /\
    e = {| doc_key := key; page_no := i + 1; text := normalize (page_text page) |}.
Proof.
  intros Hbuild Hfind [i Hi]%list_elem_of_lookup He.
  destruct (built_page_lookup _ _ _ _ _ Hbuild Hfind Hi) as (path & e' & Hin & Hdoc & He').
  assert (e' = e) as -> by congruence.
  destruct (fs path) as [pdf|] eqn:Hfs.
  - destruct (proj1 (doc_pages_lookup fs key path pdf i e Hfs) Hdoc)
      as (page & Hpage & ->).
    by exists path, pdf, i, page.
  - by rewrite doc_pages_missing in Hdoc.
Qed.

Lemma built_missing_document idx key path :
  build_index files fit fs = Ok idx ->
  (key, path) ∈ files -> fs path = None ->
  dict_find key (doc_page_index idx) = Some [].
Proof.
  intros (_ & Hindex & _)%build_index_Ok Hin Hfs; [|done]. rewrite Hindex.
  destruct (layout_find fs files key path files_nodup Hin)
    as (before & after & _ & -> & _).
  by rewrite doc_pages_missing.
Qed.

(** C8. After a build the matrix has one row per page of the corpus (and
    there is no matrix exactly when the corpus is empty); the position
    lists, taken in document order, are the global positions [0, 1, ...]
    in order, so every position belongs to exactly one document; the
    [i]-th position of a document is its page [i + 1]; a document whose
    file is missing has the empty list. *)
Theorem build_index_partition idx :
  build_index files fit fs = Ok idx ->
  match tfidf_matrix idx with
  | Some matrix => length matrix = length (pages_data idx) /\ pages_data idx <> []
  | None => pages_data idx = []
  end /\
  (doc_page_index idx).*1 = files.*1 /\
  concat (doc_page_index idx).*2 = seq 0 (length (pages_data idx)) /\
  (forall p, p < length (pages_data idx) ->
     exists key positions,
       dict_find key (doc_page_index idx) = Some positions /\ p ∈ positions /\
       forall key' positions',
         dict_find key' (doc_page_index idx) = Some positions' ->
         p ∈ positions' -> key' = key) /\
  (forall key positions i p,
     dict_find key (doc_page_index idx) = Some positions ->
     positions !! i = Some p ->
     exists e, pages_data idx !! p = Some e /\ doc_key e = key /\ page_no e = i + 1) /\
  (forall key path,
     (key, path) ∈ files -> fs path = None ->
     dict_find key (doc_page_index idx) = Some []).
Proof.
  intros Hbuild.
  destruct (build_index_Ok _ _ _ files_nodup _ Hbuild) as (Hpages & Hindex & Hvec).
  assert (NoDup (doc_page_index idx).*1) as Hkeys.
  { by rewrite Hindex, layout_keys. }
  assert (concat (doc_page_index idx).*2 = seq 0 (length (pages_data idx))) as Hconcat.
  { by rewrite Hindex, Hpages, layout_concat. }
  split; [|split; [|split; [|split; [|split]]]].
  - rewrite Hpages. destruct (all_pages fs files) as [|e pages] eqn:Hall.
    + destruct Hvec as [_ ->]. done.
    + destruct Hvec as (v & _ & _ & ->). unfold all_texts. rewrite Hall.
      split; [by rewrite !length_fmap|done].
  - by rewrite Hindex, layout_keys.
  - done.
  - intros p Hp.
    assert (p ∈ concat (doc_page_index idx).*2) as Hin.
    { rewrite Hconcat. apply elem_of_seq. lia. }
    apply list_elem_of_In, in_concat in Hin as (positions & Hpos & Hin).
    apply list_elem_of_In, list_elem_of_fmap in Hpos as ([key ?] & -> & Hdoc).
    apply list_elem_of_In in Hin. cbn in Hin.
    exists key, l. split; [by apply dict_find_elem|]. split; [done|].
    intros key' positions' Hfind' Hin'.
    apply list_elem_of_lookup in Hdoc as [n Hn].
    apply dict_find_Some_elem, list_elem_of_lookup in Hfind' as [n' Hn'].
    assert (n = n') as <-.
    { eapply (concat_NoDup_unique (doc_page_index idx).*2 n n' l positions' p).
      - rewrite Hconcat. apply NoDup_seq.
      - by rewrite list_lookup_fmap, Hn.
      - by rewrite list_lookup_fmap, Hn'.
      - done.
      - done. }
    congruence.
  - intros key positions i p Hfind Hp.
    destruct (built_page_lookup _ _ _ _ _ Hbuild Hfind Hp) as (path & e & _ & He & Hdata).
    exists e. split; [done|]. split.
    + apply (doc_pages_key fs (key, path)). by eapply list_elem_of_lookup_2.
    + by eapply doc_pages_page_no.
  - intros key path. by apply built_missing_document.
Qed.

(** C7. A page whose extracted text is empty or whitespace-only is stored
    at its global position with the empty text, the text handed to the
    vectorizer for it is the sentinel, and the matrix has its row there. *)
Theorem blank_page_indexed idx key path (pdf : Os.Pdf) i page :
  build_index files fit fs = Ok idx ->
  (key, path) ∈ files -> fs path = Some pdf -> pdf !! i = Some page ->
  blank (page_text page) = true ->
  exists positions p transform matrix,
    dict_find key (doc_page_index idx) = Some positions /\
    positions !! i = Some p /\
    pages_data idx !! p = Some {| doc_key := key; page_no := i + 1; text := "" |} /\
    fit (all_texts fs files) = Ok transform /\
    all_texts fs files !! p = Some NO_TEXT /\
    vectorizer idx = Some transform /\
    tfidf_matrix idx = Some matrix /\
    matrix !! p = Some (transform NO_TEXT).
Proof.
  intros Hbuild Hin Hfs Hpage Hblank.
  destruct (build_index_Ok _ _ _ files_nodup _ Hbuild) as (Hpages & Hindex & Hvec).
  destruct (layout_find fs files key path files_nodup Hin)
    as (before & after & Hfiles & Hfind & Hall).
  assert (doc_pages fs (key, path) !! i
          = Some {| doc_key := key; page_no := i + 1; text := "" |}) as Hentry.
  { apply (doc_pages_lookup fs key path pdf); [done|]. exists page.
    by rewrite normalize_blank. }
  pose proof (lookup_lt_Some _ _ _ Hentry) as Hi.
  set (p := length (all_pages fs before) + i).
  assert (all_pages fs files !! p
          = Some {| doc_key := key; page_no := i + 1; text := "" |}) as Hp.
  { rewrite Hall. unfold p. rewrite lookup_app_r by lia. rewrite lookup_app_l by lia.
    rewrite <- Hentry. f_equal. lia. }
  assert (all_texts fs files !! p = Some NO_TEXT) as Htext.
  { unfold all_texts. by rewrite list_lookup_fmap, Hp. }
  destruct (all_pages fs files) as [|e pages] eqn:Hcorpus; [done|].
  destruct Hvec as (v & Hfit & Hv & Hm).
  exists (seq (length (all_pages fs before)) (length (doc_pages fs (key, path)))),
    p, v, (v <$> all_texts fs files).
  split; [by rewrite Hindex|]. split; [by apply lookup_seq|].
  split; [by rewrite Hpages|]. do 4 (split; [done|]).
  by rewrite list_lookup_fmap, Htext.
Qed.

End build_claims.

(** * The ranking of one document *)

Section ranking_facts.
Variable argsort : list Q -> list nat.
Hypothesis argsort_ok : Np.argsort_spec argsort.
Variable cs : list Q.
Variable k : Z.
Variable positions : list nat.

Lemma key_scores (rank_pos : nat) :
  rank_pos < length positions ->
  Np.key (scores_at cs positions) rank_pos = nth (nth rank_pos positions 0) cs 0%Q.
Proof.
  intros Hrp. unfold Np.key, scores_at.
  rewrite (nth_indep _ 0%Q (nth 0 cs 0%Q)) by (by rewrite length_fmap).
  apply (map_nth (fun p => nth p cs 0%Q)).
Qed.

Lemma order_elem (rank_pos : nat) :
  rank_pos ∈ top_idx_order argsort k (scores_at cs positions) -> rank_pos < length positions.
Proof.
  intros Hrp%(top_idx_order_elem argsort argsort_ok). unfold scores_at in Hrp.
  by rewrite length_fmap in Hrp.
Qed.

Lemma order_sorted (R : relation nat) :
  StronglySorted R (argsort (scores_at cs positions)) ->
  StronglySorted (flip R) (top_idx_order argsort k (scores_at cs positions)).
Proof.
  intros Hsorted. unfold top_idx_order.
  destruct (slice_to_prefix k (rev (argsort (scores_at cs positions)))) as [n ->].
  by apply StronglySorted_take, StronglySorted_rev.
Qed.

Lemma ranking_elem (p : nat) : p ∈ ranking argsort cs k positions -> p ∈ positions.
Proof.
  unfold ranking. intros (rp & -> & Hrp%order_elem)%list_elem_of_fmap.
  by apply list_elem_of_In, nth_In.
Qed.

Lemma ranking_length : (0 <= k)%Z -> length (ranking argsort cs k positions) <= Z.to_nat k.
Proof.
  intros Hk. unfold ranking, top_idx_order. rewrite length_fmap.
  by apply slice_to_length_le.
Qed.

Lemma ranking_length_neg :
  (k < 0)%Z ->
  length (ranking argsort cs k positions) = length positions - Z.to_nat (- k).
Proof.
  intros Hk. unfold ranking, top_idx_order.
  rewrite length_fmap, slice_to_length_neg, length_rev by done.
  unfold scores_at. by rewrite (argsort_length argsort argsort_ok), length_fmap.
Qed.

(** Best first. *)
Lemma ranking_sorted :
  StronglySorted (fun p p' => (nth p' cs 0 <= nth p cs 0)%Q)
                 (ranking argsort cs k positions).
Proof.
  unfold ranking.
  eapply StronglySorted_map; [|apply order_sorted, (Np.argsort_sorted _ argsort_ok)].
  intros rp rp' Hrp%order_elem Hrp'%order_elem. unfold flip.
  by rewrite !key_scores.
Qed.

(** The ranking of all the pages: what the document gets when [top_k] is
    its number of pages. *)
Lemma ranking_full :
  ranking argsort cs (Z.of_nat (length positions)) positions
  = (fun rank_pos => nth rank_pos positions 0) <$> rev (argsort (scores_at cs positions)).
Proof.
  unfold ranking, top_idx_order. rewrite slice_to_all; [done|].
  rewrite length_rev, (argsort_length argsort argsort_ok). unfold scores_at.
  rewrite length_fmap. lia.
Qed.

Lemma ranking_full_perm :
  ranking argsort cs (Z.of_nat (length positions)) positions ≡ₚ positions.
Proof.
  rewrite ranking_full, <- Permutation_rev, (Np.argsort_perm _ argsort_ok).
  unfold scores_at. rewrite length_fmap. by rewrite fmap_nth_seq.
Qed.

(** [l[:-m]]: a negative [top_k] drops pages from the end of the ranking. *)
Lemma ranking_neg :
  (k < 0)%Z ->
  ranking argsort cs k positions
  = take (length positions - Z.to_nat (- k))
         (ranking argsort cs (Z.of_nat (length positions)) positions).
Proof.
  intros Hk. rewrite ranking_full. unfold ranking, top_idx_order, slice_to.
  destruct (Z.leb_spec 0 k) as [|_]; [lia|].
  rewrite fmap_take, length_rev, (argsort_length argsort argsort_ok). unfold scores_at.
  by rewrite length_fmap.
Qed.

End ranking_facts.

(** * Search on a built index *)

Lemma PDF_FILES_NoDup (here : string) : NoDup (PDF_FILES here).*1.
Proof. by apply (bool_decide_unpack _). Qed.

Lemma example_build :
  build_index Example.files Example.fit Example.fs = Ok Example.index.
Proof. reflexivity. Qed.

Lemma example_empty_build :
  build_index Example.files Example.fit Example.no_files = Ok Example.empty_index.
Proof. reflexivity. Qed.

(** The errors of [int(data.get("top_k", TOP_K))]. *)
Lemma get_top_k_raises (r : Request) (e : Exception) :
  get_top_k r = Raise e -> e = ValueError \/ e = TypeError \/ e = OverflowError.
Proof.
  unfold get_top_k. destruct (top_k_field r) as [x|]; [|done].
  destruct x as [| | | | | |s| |]; cbn; try done;
    try (intros [= <-]; auto).
  destruct (int_of_str s); [done|]. intros [= <-]. auto.
Qed.

Section search_claims.
Variable files : dict string.
Variable fit : list string -> result Sk.Fitted.
Variable argsort : list Q -> list nat.
Variable fs : Os.FileSystem.
Hypothesis files_nodup : NoDup files.*1.
Hypothesis argsort_ok : Np.argsort_spec argsort.

Lemma search_results_elem idx query k key items :
  (key, items) ∈ search_results files argsort idx query k ->
  exists positions,
    (key, positions) ∈ doc_page_index idx /\
    items = page_item files idx (similarities idx query) key
              <$> ranking argsort (similarities idx query) k positions.
Proof.
  unfold search_results. intros ([key' positions] & [= -> ->] & Hdoc)%list_elem_of_fmap.
  by exists positions.
Qed.

(** C1. A search with a non-empty query on a non-empty index and a positive
    [top_k] answers with one list per document, each of at most [top_k]
    items, the scores never increasing along the list. *)
Theorem search_top_k_sorted idx r query k :
  build_index files fit fs = Ok idx ->
  pages_data idx <> [] ->
  get_query r = Ok query ->
  truthy query = true ->
  get_top_k r = Ok k ->
  (0 < k)%Z ->
  exists results summary,
    api_search files argsort idx r = Ok (SearchBody query results summary, 200) /\
    results.*1 = files.*1 /\
    forall key items, (key, items) ∈ results ->
      length items <= Z.to_nat k /\
      StronglySorted (fun a b => (score b <= score a)%Q) items.
Proof.
  intros Hbuild Hne Hq Htruthy Hk Hpos.
  eexists _, _. split; [by apply (api_search_Ok files fit argsort fs)|].
  split.
  { unfold search_results. rewrite <- list_fmap_compose.
    destruct (build_index_Ok _ _ _ files_nodup _ Hbuild) as (_ & -> & _).
    by rewrite <- layout_keys with (fs := fs) (offset := 0). }
  intros key items (positions & _ & ->)%search_results_elem. split.
  - rewrite length_fmap. apply ranking_length. lia.
  - eapply StronglySorted_map; [|by apply ranking_sorted].
    intros p p' _ _ Hle. cbn. by apply round4_mono.
Qed.

Lemma similarities_lookup idx query transform matrix p row :
  vectorizer idx = Some transform ->
  tfidf_matrix idx = Some matrix ->
  matrix !! p = Some row ->
  nth p (similarities idx query) 0%Q = Np.dot (transform query) row.
Proof.
  intros Hv Hm Hrow. unfold similarities, Np.linear_kernel. rewrite Hv, Hm.
  change (map ?f matrix) with (f <$> matrix).
  apply nth_lookup_Some. by rewrite list_lookup_fmap, Hrow.
Qed.

(** Where an item of a response comes from. *)
Lemma search_item_origin idx query k key items item :
  build_index files fit fs = Ok idx ->
  (key, items) ∈ search_results files argsort idx query k ->
  item ∈ items ->
  exists positions p e,
    dict_find key (doc_page_index idx) = Some positions /\
    p ∈ positions /\
    pages_data idx !! p = Some e /\
    item = item_of (Os.basename (dict_get key "" files)) e
                   (nth p (similarities idx query) 0%Q).
Proof.
  intros Hbuild (positions & Hdoc & ->)%search_results_elem
         (p & -> & Hp%(ranking_elem argsort argsort_ok))%list_elem_of_fmap.
  destruct (build_index_Ok _ _ _ files_nodup _ Hbuild) as (Hpages & Hindex & _).
  assert (p < length (pages_data idx)) as Hlt.
  { rewrite Hpages. rewrite Hindex in Hdoc. by eapply layout_in_range. }
  destruct (lookup_lt_is_Some_2 _ _ Hlt) as [e He].
  exists positions, p, e. split.
  { apply dict_find_elem; [|done]. by rewrite Hindex, layout_keys. }
  do 2 (split; [done|]). unfold page_item.
  by rewrite (nth_lookup_Some _ _ no_page e He).
Qed.

(** C2. The score of every returned page is the cosine similarity of the
    transformed query and the page's row of the matrix, rounded to four
    decimals, and lies between 0 and 1. The vectorizer's rows are taken
    to be what [TfidfVectorizer] with its default [norm] gives:
    non-negative and of length 1 or 0. *)
Theorem search_score_is_cosine idx r query k transform matrix :
  build_index files fit fs = Ok idx ->
  vectorizer idx = Some transform ->
  tfidf_matrix idx = Some matrix ->
  (forall t, Sk.l2_normalized (transform t)) ->
  get_query r = Ok query ->
  truthy query = true ->
  get_top_k r = Ok k ->
  exists results summary,
    api_search files argsort idx r = Ok (SearchBody query results summary, 200) /\
    forall key items item, (key, items) ∈ results -> item ∈ items ->
      exists positions p e row c,
        dict_find key (doc_page_index idx) = Some positions /\
        p ∈ positions /\
        pages_data idx !! p = Some e /\
        item_page_no item = page_no e /\
        matrix !! p = Some row /\
        Sk.is_cosine_similarity (transform query) row c /\
        score item = round4 c /\
        (0 <= score item <= 1)%Q.
Proof.
  intros Hbuild Hv Hm Hnorm Hq Htruthy Hk.
  destruct (build_index_Ok _ _ _ files_nodup _ Hbuild) as (Hpages & Hindex & Hvec).
  assert (pages_data idx <> []) as Hne.
  { rewrite Hpages. destruct (all_pages fs files); [|done].
    destruct Hvec as [_ Hnone]. congruence. }
  eexists _, _. split; [by apply (api_search_Ok files fit argsort fs)|].
  intros key items item Hitems Hitem.
  destruct (search_item_origin _ _ _ _ _ _ Hbuild Hitems Hitem)
    as (positions & p & e & Hfind & Hp & He & ->).
  assert (length matrix = length (pages_data idx)) as Hrows.
  { rewrite Hpages. destruct (all_pages fs files) eqn:Hall; [by rewrite Hpages in Hne|].
    destruct Hvec as (v & _ & _ & Hm'). rewrite Hm in Hm'. injection Hm' as ->.
    unfold all_texts. by rewrite Hall, !length_fmap. }
  destruct (lookup_lt_is_Some_2 matrix p) as [row Hrow].
  { rewrite Hrows. by eapply lookup_lt_Some. }
  assert (Sk.l2_normalized row) as Hrow_norm.
  { destruct (all_pages fs files) eqn:Hall; [by rewrite Hpages in Hne|].
    destruct Hvec as (v & _ & Hv' & Hm'). rewrite Hm in Hm'. injection Hm' as ->.
    rewrite Hv in Hv'. injection Hv' as <-.
    rewrite list_lookup_fmap in Hrow.
    destruct (all_texts fs files !! p); [|done]. injection Hrow as <-. apply Hnorm. }
  destruct (linear_kernel_cosine (transform query) row (Hnorm query) Hrow_norm)
    as [Hcos Hunit].
  exists positions, p, e, row, (Np.dot (transform query) row).
  do 5 (split; [done|]). split; [done|].
  cbn. rewrite (similarities_lookup idx query transform matrix p row) by done.
  split; [done|]. by apply round4_unit_interval.
Qed.

(** The length of a string cut to at most [cap] characters. *)
Lemma str_take_length (n : nat) (s : string) :
  String.length (str_take n s) = min n (String.length s).
Proof.
  revert s. induction n as [|n IH]; intros [|c s]; cbn; [done..|]. by rewrite IH.
Qed.

Lemma append_length (s t : string) :
  String.length (s +:+ t) = String.length s + String.length t.
Proof.
  induction s as [|c s IH]; [done|].
  change (String c s +:+ t) with (String c (s +:+ t)). cbn. by rewrite IH.
Qed.

Lemma excerpt_length (cap : nat) (s : string) :
  String.length (excerpt cap s) =
  if cap <? String.length s then cap + 3 else String.length s.
Proof.
  unfold excerpt. destruct (Nat.ltb_spec cap (String.length s)); [|done].
  cbv iota. rewrite append_length, str_take_length. cbn. lia.
Qed.

(** C10. The excerpt of every returned page is cut from the text stored in
    the corpus, which is the page's extracted text with its whitespace
    normalized, never from the text handed to the vectorizer: a page whose
    extracted text is empty or whitespace-only, for which the vectorizer
    was given the sentinel, is returned with the empty excerpt, and an
    excerpt is the sentinel only when the page's own text is. *)
Theorem search_excerpt_from_corpus idx r query k :
  build_index files fit fs = Ok idx ->
  pages_data idx <> [] ->
  get_query r = Ok query ->
  truthy query = true ->
  get_top_k r = Ok k ->
  exists results summary,
    api_search files argsort idx r = Ok (SearchBody query results summary, 200) /\
    forall key items item, (key, items) ∈ results -> item ∈ items ->
      exists path (pdf : Os.Pdf) i page p,
        (key, path) ∈ files /\ fs path = Some pdf /\ pdf !! i = Some page /\
        item_page_no item = i + 1 /\
        text_snippet item = excerpt 600 (normalize (page_text page)) /\
        pages_data idx !! p
          = Some {| doc_key := key; page_no := i + 1;
                    text := normalize (page_text page) |} /\
        (blank (page_text page) = true ->
           all_texts fs files !! p = Some NO_TEXT /\ text_snippet item = "") /\
        (text_snippet item = NO_TEXT -> normalize (page_text page) = NO_TEXT).
Proof.
  intros Hbuild Hne Hq Htruthy Hk.
  destruct (build_index_Ok _ _ _ files_nodup _ Hbuild) as (Hpages & Hindex & Hvec).
  eexists _, _. split; [by apply (api_search_Ok files fit argsort fs)|].
  intros key items item Hitems Hitem.
  destruct (search_item_origin _ _ _ _ _ _ Hbuild Hitems Hitem)
    as (positions & p & e & Hfind & Hp & He & ->).
  destruct (built_entry_source files fit fs files_nodup _ _ _ _ _ Hbuild Hfind Hp He)
    as (path & pdf & i & page & Hin & Hfs & _ & Hpage & ->).
  exists path, pdf, i, page, p. do 5 (split; [done|]). split; [done|]. cbn. split.
  - intros Hblank. unfold all_texts.
    rewrite <- Hpages, list_lookup_fmap, He. cbn.
    by rewrite normalize_blank.
  - intros Hsnippet.
    pose proof (excerpt_length 600 (normalize (page_text page))) as Hlen.
    rewrite Hsnippet in Hlen. unfold excerpt in Hsnippet.
    destruct (Nat.ltb_spec 600 (String.length (normalize (page_text page)))); [|done].
    cbn in Hlen. lia.
Qed.

(** The page numbers of a result list are the ranks [argsort] chose, counted
    from 1. *)
Lemma ranking_page_numbers idx cs k key positions :
  build_index files fit fs = Ok idx ->
  dict_find key (doc_page_index idx) = Some positions ->
  item_page_no <$> (page_item files idx cs key <$> ranking argsort cs k positions)
  = S <$> top_idx_order argsort k (scores_at cs positions).
Proof.
  intros Hbuild Hfind. unfold ranking. rewrite <- !list_fmap_compose.
  apply Forall_fmap_ext_1, Forall_forall. intros rp Hrp.
  apply (order_elem argsort argsort_ok) in Hrp.
  destruct (lookup_lt_is_Some_2 _ _ Hrp) as [p Hp].
  destruct (built_page_lookup files fit fs files_nodup idx key positions rp p
              Hbuild Hfind Hp) as (path & e & _ & Hdoc & He).
  cbn. rewrite (nth_lookup_Some _ _ 0 p Hp), (nth_lookup_Some _ _ no_page e He).
  rewrite (doc_pages_page_no fs _ _ _ Hdoc). lia.
Qed.

(** C3, as the code has it. The page numbers of a document's list are the
    indices [argsort] returns for the document's scores, read backwards, cut
    to [top_k] and counted from 1. So of two pages of a list, with equal
    scores or not, the one listed first is the one [argsort] returned later:
    the code has no tie-break of its own, and pages with equal scores come
    in the reverse of the order [argsort] leaves them in. *)
Theorem search_ties_follow_argsort idx r query k :
  build_index files fit fs = Ok idx ->
  pages_data idx <> [] ->
  get_query r = Ok query ->
  truthy query = true ->
  get_top_k r = Ok k ->
  exists results summary,
    api_search files argsort idx r = Ok (SearchBody query results summary, 200) /\
    forall key positions,
      dict_find key (doc_page_index idx) = Some positions ->
      exists items,
        dict_find key results = Some items /\
        item_page_no <$> items
        = S <$> slice_to k (rev (argsort (scores_at (similarities idx query) positions))) /\
        forall i j item item',
          i < j -> items !! i = Some item -> items !! j = Some item' ->
          exists a b,
            b < a /\
            argsort (scores_at (similarities idx query) positions) !! a
            = Some (item_page_no item - 1) /\
            argsort (scores_at (similarities idx query) positions) !! b
            = Some (item_page_no item' - 1).
Proof.
  intros Hbuild Hne Hq Htruthy Hk.
  destruct (build_index_Ok _ _ _ files_nodup _ Hbuild) as (Hpages & Hindex & Hvec).
  eexists _, _. split; [by apply (api_search_Ok files fit argsort fs)|].
  intros key positions Hfind.
  set (cs := similarities idx query).
  set (order := argsort (scores_at cs positions)).
  exists (page_item files idx cs key <$> ranking argsort cs k positions).
  split.
  { apply dict_find_elem.
    - unfold search_results. rewrite <- list_fmap_compose.
      change (fst ∘ doc_result files argsort idx (similarities idx query) k)
        with (@fst string (list nat)).
      by rewrite Hindex, layout_keys.
    - apply dict_find_Some_elem in Hfind. unfold search_results.
      apply list_elem_of_fmap. by exists (key, positions). }
  pose proof (ranking_page_numbers idx cs k key positions Hbuild Hfind) as Hpages_no.
  unfold top_idx_order in Hpages_no. fold order in Hpages_no.
  split; [done|].
  assert (forall i item,
            (page_item files idx cs key <$> ranking argsort cs k positions) !! i
            = Some item ->
            i < length order /\
            order !! (length order - S i) = Some (item_page_no item - 1)) as Hback.
  { intros i item Hitem.
    apply (f_equal (fmap item_page_no)) in Hitem.
    rewrite <- list_lookup_fmap, Hpages_no, list_lookup_fmap in Hitem.
    destruct (slice_to_prefix k (rev order)) as [n Hn]. rewrite Hn in Hitem.
    destruct (take n (rev order) !! i) as [rp|] eqn:Hrp; [|done].
    injection Hitem as <-.
    apply lookup_take_Some in Hrp as [Hrp _].
    rewrite rev_alt in Hrp. change (rev_append order []) with (reverse order) in Hrp.
    apply reverse_lookup_Some in Hrp as [Hrp Hi].
    split; [done|]. rewrite Hrp. f_equal. lia. }
  intros i j item item' Hij Hitem Hitem'.
  destruct (Hback i item Hitem) as [Hi Ha].
  destruct (Hback j item' Hitem') as [Hj Hb].
  exists (length order - S i), (length order - S j).
  split; [lia|]. done.
Qed.

(** C4, as the code has it. [top_k] is converted with [int] and never
    checked: a value [int] rejects raises its conversion error, which is
    [ValueError], [TypeError] or [OverflowError]; the only request answered
    with [InvalidRequest] is one with an empty query; a [top_k] of 0 gives
    every document the empty list, and a negative one, [-m], gives it its
    ranking without the last [m] pages, the ranking being the list the
    document gets when [top_k] is its number of pages: all its pages, by
    descending similarity. *)
Theorem top_k_not_validated idx r :
  (forall query e,
     get_query r = Ok query -> get_top_k r = Raise e ->
     (e = ValueError \/ e = TypeError \/ e = OverflowError) /\
     api_search files argsort idx r = Raise e) /\
  (api_search files argsort idx r = Ok InvalidRequest -> get_query r = Ok "") /\
  (forall query k,
     build_index files fit fs = Ok idx ->
     pages_data idx <> [] ->
     get_query r = Ok query ->
     truthy query = true ->
     get_top_k r = Ok k ->
     (k <= 0)%Z ->
     exists results summary,
       api_search files argsort idx r = Ok (SearchBody query results summary, 200) /\
       forall key positions,
         dict_find key (doc_page_index idx) = Some positions ->
         exists items full,
           dict_find key results = Some items /\
           dict_find key
             (search_results files argsort idx query (Z.of_nat (length positions)))
           = Some (page_item files idx (similarities idx query) key <$> full) /\
           full ≡ₚ positions /\
           StronglySorted
             (fun p p' => (nth p' (similarities idx query) 0
                           <= nth p (similarities idx query) 0)%Q) full /\
           (k = 0%Z -> items = []) /\
           ((k < 0)%Z ->
              items = page_item files idx (similarities idx query) key
                        <$> take (length positions - Z.to_nat (- k)) full)).
Proof.
  split; [|split].
  - intros query e Hq Hk. split; [by eapply get_top_k_raises|].
    unfold api_search. by rewrite Hq, Hk.
  - unfold api_search.
    destruct (get_query r) as [query|]; cbn; [|done].
    destruct (get_top_k r) as [k|]; cbn; [|done].
    destruct query as [|c query]; cbn; [done|].
    destruct (tfidf_matrix idx); cbn; [|done].
    destruct (vectorizer idx); cbn; [|done].
    destruct (for_each _ _ _) as [[??]|]; cbn; done.
  - intros query k Hbuild Hne Hq Htruthy Hk Hnonpos.
    destruct (build_index_Ok _ _ _ files_nodup _ Hbuild) as (Hpages & Hindex & Hvec).
    eexists _, _. split; [by apply (api_search_Ok files fit argsort fs)|].
    intros key positions Hfind.
    set (cs := similarities idx query).
    assert (forall k',
              dict_find key (search_results files argsort idx query k')
              = Some (page_item files idx cs key <$> ranking argsort cs k' positions))
      as Hresults.
    { intros k'. apply dict_find_elem.
      - unfold search_results. rewrite <- list_fmap_compose.
        change (fst ∘ doc_result files argsort idx (similarities idx query) k')
          with (@fst string (list nat)).
        by rewrite Hindex, layout_keys.
      - apply dict_find_Some_elem in Hfind. unfold search_results.
        apply list_elem_of_fmap. by exists (key, positions). }
    exists (page_item files idx cs key <$> ranking argsort cs k positions),
           (ranking argsort cs (Z.of_nat (length positions)) positions).
    split; [apply Hresults|]. split; [apply Hresults|].
    split; [by apply ranking_full_perm|].
    split; [by apply ranking_sorted|].
    split.
    + intros ->. unfold ranking, top_idx_order. by rewrite slice_to_0.
    + intros Hneg. by rewrite (ranking_neg argsort argsort_ok cs k positions Hneg).
Qed.

(** C5. When no page was extracted at build time, the build leaves no
    matrix, and every search with a non-empty query (and a [top_k] that
    [int] accepts) is answered with [IndexUnavailable]. *)
Theorem empty_corpus_index_unavailable r query k :
  all_pages fs files = [] ->
  get_query r = Ok query ->
  truthy query = true ->
  get_top_k r = Ok k ->
  exists idx,
    build_index files fit fs = Ok idx /\
    tfidf_matrix idx = None /\
    api_search files argsort idx r = Ok IndexUnavailable.
Proof.
  intros Hall Hq Htruthy Hk.
  assert (exists idx, build_index files fit fs = Ok idx) as [idx Hbuild].
  { unfold build_index. rewrite collect_eq by done. cbn.
    unfold all_texts. rewrite Hall. cbn. eauto. }
  exists idx. split; [done|].
  destruct (build_index_Ok _ _ _ files_nodup _ Hbuild) as (Hpages & _ & Hvec).
  rewrite Hall in Hvec, Hpages. destruct Hvec as [_ Hm]. split; [done|].
  by apply (api_search_no_pages files fit argsort fs files_nodup idx r query k).
Qed.

End search_claims.


(** * The summary *)

Section sorted_facts.
Context {A : Type} (key : A -> nat).

Lemma insert_desc_perm (x : A) (l : list A) : insert_desc key x l ≡ₚ x :: l.
Proof.
  induction l as [|y l IH]; cbn [insert_desc]; [reflexivity|].
  destruct (key x <? key y); [|reflexivity]. rewrite IH. apply Permutation_swap.
Qed.

Lemma sorted_reverse_perm (l : list A) : sorted_reverse key l ≡ₚ l.
Proof.
  induction l as [|x l IH]; [reflexivity|].
  change (sorted_reverse key (x :: l)) with (insert_desc key x (sorted_reverse key l)).
  by rewrite insert_desc_perm, IH.
Qed.

Lemma insert_desc_sorted (x : A) (l : list A) :
  StronglySorted (fun a b => key b <= key a) l ->
  StronglySorted (fun a b => key b <= key a) (insert_desc key x l).
Proof.
  induction 1 as [|y l Hl IH Hy]; cbn [insert_desc]; [repeat constructor|].
  destruct (Nat.ltb_spec (key x) (key y)).
  - constructor; [done|]. rewrite insert_desc_perm. constructor; [lia|done].
  - constructor; [by constructor|]. constructor; [done|].
    eapply Forall_impl; [exact Hy|]. cbn. intros; lia.
Qed.

Lemma sorted_reverse_sorted (l : list A) :
  StronglySorted (fun a b => key b <= key a) (sorted_reverse key l).
Proof.
  induction l as [|x l IH]; [constructor|].
  change (sorted_reverse key (x :: l)) with (insert_desc key x (sorted_reverse key l)).
  by apply insert_desc_sorted.
Qed.

End sorted_facts.

Section summary_claims.

Lemma foldl_doc_scores query (acc : dict nat) (snippets : dict string) :
  NoDup snippets.*1 ->
  (forall doc, doc ∈ snippets.*1 -> doc ∉ acc.*1) ->
  foldl (fun scores '(doc, text) => dict_set doc (overlap query text) scores) acc snippets
  = acc ++ overlaps query snippets.
Proof.
  revert acc. induction snippets as [|[doc text] snippets IH]; intros acc Hnd Hfresh; cbn.
  - by rewrite app_nil_r.
  - cbn in Hnd. apply NoDup_cons in Hnd as [Hdoc Hnd].
    rewrite dict_set_fresh by (apply Hfresh; left).
    rewrite IH; [by rewrite <- app_assoc|done|].
    intros doc' Hdoc'. rewrite fmap_app, elem_of_app. cbn.
    rewrite list_elem_of_singleton. intros [Hin| ->]; [|done].
    revert Hin. apply Hfresh. by right.
Qed.

Lemma doc_scores_overlaps query (snippets : dict string) :
  NoDup snippets.*1 -> doc_scores query snippets = overlaps query snippets.
Proof.
  intros Hnd. unfold doc_scores. rewrite foldl_doc_scores; [done..|].
  intros doc _. apply not_elem_of_nil.
Qed.

Lemma top_score_overlaps query (snippets : dict string) :
  top_score query snippets = max_list (overlaps query snippets).*2.
Proof.
  unfold top_score, overlaps. by rewrite <- !list_fmap_compose.
Qed.

Lemma max_list_head (x : nat) (l : list nat) :
  Forall (fun y => y <= x) l -> max_list (x :: l) = x.
Proof.
  intros Hl. cbn. induction Hl as [|y l Hy _ IH]; cbn in *; lia.
Qed.

(** C6, as the code has it. When the largest overlap is positive, the line
    after the heading names every document, in descending order of overlap
    (so the first one named has the largest); when it is 0, or there is no
    document, the line says that no document dominates. *)
Theorem summary_relevance_line query (snippets : dict string) :
  NoDup snippets.*1 ->
  exists ranked,
    ranked ≡ₚ overlaps query snippets /\
    StronglySorted (fun a b => b.2 <= a.2) ranked /\
    (forall d rest, ranked = d :: rest -> d.2 = top_score query snippets) /\
    summary_lines query snippets !! 1 =
      Some (if 0 <? top_score query snippets
            then "Documents with strongest relevance: " +:+ join ", " ranked.*1 +:+ "."
            else NO_DOMINANT).
Proof.
  intros Hnd. exists (ranked query snippets).
  assert (ranked query snippets ≡ₚ overlaps query snippets) as Hperm.
  { unfold ranked. by rewrite sorted_reverse_perm, doc_scores_overlaps. }
  pose proof (sorted_reverse_sorted snd (doc_scores query snippets)) as Hsorted.
  fold (ranked query snippets) in Hsorted.
  assert (forall d rest, ranked query snippets = d :: rest ->
            d.2 = top_score query snippets) as Hhead.
  { intros d rest Heq. rewrite top_score_overlaps, <- Hperm, Heq. cbn [fmap list_fmap].
    rewrite Heq in Hsorted. apply StronglySorted_cons in Hsorted as [Hd _].
    symmetry. apply (max_list_head d.2). by apply Forall_fmap. }
  do 3 (split; [done|]). cbn. f_equal. unfold relevance_line.
  destruct (ranked query snippets) as [|[doc top] rest] eqn:Hranked.
  - assert (top_score query snippets = 0) as ->; [|done].
    rewrite top_score_overlaps, <- Hperm. done.
  - by rewrite <- (Hhead _ _ eq_refl).
Qed.

(** The overlap does not depend on the order in which the interpreter
    enumerates the two token sets: whatever duplicate-free listings [qs]
    and [ds] of them it walks, [len(q_tokens & tokens)] is the same. *)
Lemma overlap_enumeration query text (qs ds : list string) :
  NoDup qs ->
  (forall x, x ∈ qs <-> x ∈ q_tokens query) ->
  (forall x, x ∈ ds <-> x ∈ doc_tokens text) ->
  length (filter (fun x => x ∈ ds) qs) = overlap query text.
Proof.
  intros Hnd Hqs Hds. unfold overlap, size, set_size. cbn.
  apply Permutation_length, NoDup_Permutation.
  - by apply NoDup_filter.
  - apply NoDup_elements.
  - intros x. rewrite list_elem_of_filter, elem_of_elements, elem_of_intersection.
    rewrite Hqs, Hds. tauto.
Qed.

Lemma set_and_length (build : SetOrder) (a b : list string) (X Y : gset string) :
  set_order_spec build ->
  (forall x, x ∈ a <-> x ∈ X) -> (forall x, x ∈ b <-> x ∈ Y) ->
  length (set_and build a b) = size (X ∩ Y).
Proof.
  intros Hbuild Ha Hb. unfold set_and.
  destruct (length a <? length b);
    apply Permutation_length, NoDup_Permutation;
    try apply (set_order_NoDup _ Hbuild); try apply NoDup_elements;
    intros x;
    rewrite elem_of_elements, elem_of_intersection, <- Ha, <- Hb,
      (set_order_elem _ Hbuild), list_elem_of_filter; tauto.
Qed.

(** Whatever the order of the sets, the overlap is the number of common
    tokens. *)
Lemma overlap_in_overlap (build : SetOrder) query text :
  set_order_spec build -> overlap_in build query text = overlap query text.
Proof.
  intros Hbuild. unfold overlap_in, overlap, q_tokens, doc_tokens.
  apply set_and_length; [done|..]; intros x;
    by rewrite (set_order_elem _ Hbuild), elem_of_list_to_set.
Qed.

Lemma doc_scores_in_doc_scores (build : SetOrder) query (snippets : dict string) :
  set_order_spec build -> doc_scores_in build query snippets = doc_scores query snippets.
Proof.
  intros Hbuild. unfold doc_scores_in, doc_scores. generalize (@nil (string * nat)).
  induction snippets as [|[doc text] snippets IH]; intros acc; cbn [foldl]; [done|].
  by rewrite overlap_in_overlap, IH.
Qed.

Lemma synthesize_summary_in_eq (build : SetOrder) query (snippets : dict string) :
  set_order_spec build ->
  synthesize_summary_in build query snippets = synthesize_summary query snippets.
Proof.
  intros Hbuild.
  unfold synthesize_summary_in, synthesize_summary, summary_lines_in, summary_lines,
    ranked_in, ranked.
  by rewrite doc_scores_in_doc_scores.
Qed.

Lemma first_seen_spec : set_order_spec first_seen.
Proof.
  split; [apply NoDup_remove_dups|]. intros l x. apply elem_of_remove_dups.
Qed.

Lemma last_seen_spec : set_order_spec last_seen.
Proof.
  split; unfold last_seen.
  - intros l. apply NoDup_ListNoDup, NoDup_rev, NoDup_ListNoDup, NoDup_remove_dups.
  - intros l x. rewrite <- (elem_of_remove_dups l x), !list_elem_of_In.
    symmetry. apply in_rev.
Qed.

(** C9. The summary is a function of the query and of the excerpt
    dictionary (its entries in insertion order) alone: the token sets the
    function builds are walked in an order that depends on the hash seed of
    the process, and whatever the orders [build] and [build'] of two calls
    are, the two summaries are the same string, the one [synthesize_summary]
    gives. *)
Theorem synthesize_summary_deterministic
    (build build' : SetOrder) (query : string) (snippets : dict string) :
  set_order_spec build -> set_order_spec build' ->
  synthesize_summary_in build query snippets
  = synthesize_summary_in build' query snippets /\
  synthesize_summary_in build query snippets = synthesize_summary query snippets /\
  forall text,
    overlap_in build query text = overlap_in build' query text.
Proof.
  intros Hbuild Hbuild'. split; [|split].
  - by rewrite !synthesize_summary_in_eq.
  - by apply synthesize_summary_in_eq.
  - intros text. by rewrite !overlap_in_overlap.
Qed.

End summary_claims.

(** * Further properties of the search *)

Section more_search_facts.
Variable files : dict string.
Variable fit : list string -> result Sk.Fitted.
Variable argsort : list Q -> list nat.
Variable fs : Os.FileSystem.
Hypothesis files_nodup : NoDup files.*1.
Hypothesis argsort_ok : Np.argsort_spec argsort.

Lemma lstrip_by_blank (s : string) : blank s = true -> lstrip_by isspace s = "".
Proof.
  unfold blank. induction s as [|c s IH]; cbn; [done|].
  intros [Hc Hs]%andb_true_iff. rewrite Hc. by apply IH.
Qed.

Lemma strip_blank (s : string) : blank s = true -> strip s = "".
Proof. intros Hs. unfold strip, strip_by. by rewrite (lstrip_by_blank s). Qed.

(** A query that is empty or whitespace-only is answered with
    [InvalidRequest], whatever the index. *)
Theorem blank_query_invalid_request idx r s k :
  query_field r = Some (JStr s) ->
  blank s = true ->
  get_top_k r = Ok k ->
  api_search files argsort idx r = Ok InvalidRequest.
Proof.
  intros Hfield Hblank Hk. unfold api_search, get_query.
  rewrite Hfield, Hk, strip_blank by done. done.
Qed.

Lemma search_results_find idx query k key positions :
  build_index files fit fs = Ok idx ->
  dict_find key (doc_page_index idx) = Some positions ->
  dict_find key (search_results files argsort idx query k)
  = Some (page_item files idx (similarities idx query) key
            <$> ranking argsort (similarities idx query) k positions).
Proof.
  intros Hbuild Hfind.
  destruct (build_index_Ok _ _ _ files_nodup _ Hbuild) as (_ & Hindex & _).
  apply dict_find_elem.
  - unfold search_results. rewrite <- list_fmap_compose.
    change (fst ∘ doc_result files argsort idx (similarities idx query) k)
      with (@fst string (list nat)).
    by rewrite Hindex, layout_keys.
  - apply dict_find_Some_elem in Hfind. unfold search_results.
    apply list_elem_of_fmap. by exists (key, positions).
Qed.

(** A document whose file is missing gets the empty list, without error. *)
Theorem missing_document_empty_list idx r query k key path :
  build_index files fit fs = Ok idx ->
  pages_data idx <> [] ->
  get_query r = Ok query ->
  truthy query = true ->
  get_top_k r = Ok k ->
  (key, path) ∈ files ->
  fs path = None ->
  exists results summary,
    api_search files argsort idx r = Ok (SearchBody query results summary, 200) /\
    dict_find key results = Some [].
Proof.
  intros Hbuild Hne Hq Htruthy Hk Hin Hfs.
  eexists _, _. split; [by apply (api_search_Ok files fit argsort fs)|].
  pose proof (built_missing_document files fit fs files_nodup idx key path
                Hbuild Hin Hfs) as Hmissing.
  rewrite (search_results_find idx query k key []) by done.
  unfold ranking, top_idx_order, scores_at. cbn.
  assert (argsort [] = []) as ->.
  { apply Permutation_nil_r. apply (Np.argsort_perm _ argsort_ok []). }
  cbn. destruct (slice_to_prefix k (@nil nat)) as [n ->]. by rewrite take_nil.
Qed.

(** The list of a document holds its best pages: a page of the document
    that is not in the list is no more similar to the query than any page
    that is. *)
Theorem search_top_k_within_document idx r query k :
  build_index files fit fs = Ok idx ->
  pages_data idx <> [] ->
  get_query r = Ok query ->
  truthy query = true ->
  get_top_k r = Ok k ->
  exists results summary,
    api_search files argsort idx r = Ok (SearchBody query results summary, 200) /\
    forall key positions,
      dict_find key (doc_page_index idx) = Some positions ->
      exists ranked,
        dict_find key results
        = Some (page_item files idx (similarities idx query) key <$> ranked) /\
        ranked ⊆ positions /\
        forall p p', p ∈ ranked -> p' ∈ positions -> p' ∉ ranked ->
          (nth p' (similarities idx query) 0 <= nth p (similarities idx query) 0)%Q.
Proof.
  intros Hbuild Hne Hq Htruthy Hk.
  eexists _, _. split; [by apply (api_search_Ok files fit argsort fs)|].
  intros key positions Hfind.
  set (cs := similarities idx query).
  exists (ranking argsort cs k positions).
  split; [by apply search_results_find|].
  split; [intros p; apply (ranking_elem argsort argsort_ok)|].
  set (scores := scores_at cs positions).
  set (at_rank := fun rank_pos : nat => nth rank_pos positions 0).
  set (full := at_rank <$> rev (argsort scores)).
  assert (exists n, ranking argsort cs k positions = take n full) as [n Hn].
  { unfold ranking, top_idx_order. fold scores.
    destruct (slice_to_prefix k (rev (argsort scores))) as [n ->].
    exists n. unfold full. by rewrite fmap_take. }
  assert (full ≡ₚ positions) as Hfull.
  { unfold full. rewrite <- Permutation_rev, (Np.argsort_perm _ argsort_ok scores).
    unfold scores, scores_at. rewrite length_fmap. unfold at_rank.
    by rewrite fmap_nth_seq. }
  assert (StronglySorted (fun p p' => (nth p' cs 0 <= nth p cs 0)%Q) full) as Hsorted.
  { unfold full. eapply StronglySorted_map;
      [|apply StronglySorted_rev, (Np.argsort_sorted _ argsort_ok scores)].
    intros rp rp' Hrp Hrp'. unfold flip, at_rank, scores.
    apply list_elem_of_In, in_rev, list_elem_of_In, (argsort_elem argsort argsort_ok) in Hrp.
    apply list_elem_of_In, in_rev, list_elem_of_In, (argsort_elem argsort argsort_ok) in Hrp'.
    unfold scores, scores_at in Hrp, Hrp'. rewrite length_fmap in Hrp, Hrp'.
    by rewrite !key_scores. }
  intros p p' Hp Hp' Hnot. rewrite Hn in Hp, Hnot.
  rewrite <- (take_drop n full) in Hsorted.
  apply (StronglySorted_app_1_elem_of _ _ _ p p' Hsorted Hp).
  rewrite <- Hfull, <- (take_drop n full), elem_of_app in Hp'.
  by destruct Hp'.
Qed.

End more_search_facts.

(** * Whitespace normalization *)

Section normalize_facts.

Lemma append_cons (c : ascii) (s t : string) : String c s +:+ t = String c (s +:+ t).
Proof. reflexivity. Qed.

Lemma append_nil_r (s : string) : s +:+ "" = s.
Proof. induction s as [|c s IH]; [done|]. by rewrite append_cons, IH. Qed.

Lemma chars_append (s t : string) :
  list_ascii_of_string (s +:+ t) = list_ascii_of_string s ++ list_ascii_of_string t.
Proof. induction s as [|c s IH]; [done|]. rewrite append_cons. cbn. by rewrite IH. Qed.

Lemma str_rev_involutive (s : string) : str_rev (str_rev s) = s.
Proof.
  unfold str_rev.
  by rewrite list_ascii_of_string_of_list_ascii, rev_involutive,
    string_of_list_ascii_of_string.
Qed.

Lemma split_from_app_word (cur : list ascii) (w s : string) :
  forallb (fun c => negb (isspace c)) (list_ascii_of_string w) = true ->
  split_from cur (w +:+ s) = split_from (rev (list_ascii_of_string w) ++ cur) s.
Proof.
  revert cur. induction w as [|c w IH]; intros cur; [done|].
  cbn [list_ascii_of_string forallb]. intros [Hc Hw]%andb_true_iff.
  rewrite append_cons. cbn [split_from].
  apply negb_true_iff in Hc. rewrite Hc, IH by done.
  cbn [rev]. by rewrite <- app_assoc.
Qed.

Lemma flush_word (cur : list ascii) :
  Forall (fun c => isspace c = false) cur -> Forall (fun w => is_word w = true) (flush cur).
Proof.
  intros Hcur. destruct cur as [|c cur]; [constructor|].
  cbn [flush]. repeat constructor. unfold is_word.
  rewrite list_ascii_of_string_of_list_ascii. apply andb_true_iff. split.
  - destruct (rev (c :: cur)) eqn:Hrev; [|done].
    apply (f_equal (@length ascii)) in Hrev. by rewrite length_rev in Hrev.
  - apply forallb_forall. intros x Hx%in_rev%list_elem_of_In.
    rewrite Forall_forall in Hcur. by rewrite Hcur.
Qed.

Lemma split_from_words (cur : list ascii) (s : string) :
  Forall (fun c => isspace c = false) cur ->
  Forall (fun w => is_word w = true) (split_from cur s).
Proof.
  revert cur. induction s as [|c s IH]; intros cur Hcur; cbn.
  - by apply flush_word.
  - destruct (isspace c) eqn:Hc.
    + apply Forall_app. split; [by apply flush_word|]. by apply IH.
    + apply IH. by constructor.
Qed.

Lemma split_from_nil (cur : list ascii) (s : string) :
  split_from cur s = [] -> cur = [] /\ blank s = true.
Proof.
  unfold blank. revert cur. induction s as [|c s IH]; intros cur; cbn.
  - by destruct cur.
  - destruct (isspace c) eqn:Hc.
    + intros [Hflush Hs]%app_eq_nil. apply IH in Hs as [_ Hs].
      by destruct cur.
    + by intros [? _]%IH.
Qed.

(** Splitting what [join] made of words gives the words back. *)
Lemma split_join (ws : list string) :
  Forall (fun w => is_word w = true) ws -> split (join " " ws) = ws.
Proof.
  unfold split, join.
  induction 1 as [|w ws [Hne Hw]%andb_true_iff Hws IH]; [done|].
  assert (flush (rev (list_ascii_of_string w)) = [w]) as Hflush.
  { destruct w as [|c w]; [done|]. unfold flush.
    destruct (rev (list_ascii_of_string (String c w))) eqn:Hrev.
    - apply (f_equal (@length ascii)) in Hrev. by rewrite length_rev in Hrev.
    - by rewrite <- Hrev, rev_involutive, string_of_list_ascii_of_string. }
  destruct ws as [|w' ws].
  - cbn [String.concat]. rewrite <- (append_nil_r w) at 1.
    rewrite split_from_app_word by done. by rewrite app_nil_r.
  - change (String.concat " " (w :: w' :: ws))
      with (w +:+ String " " (String.concat " " (w' :: ws))).
    rewrite split_from_app_word by done. rewrite app_nil_r. cbn [split_from].
    change (isspace " ") with true. cbv iota. by rewrite Hflush, IH.
Qed.

Lemma normalize_idempotent (s : string) : normalize (normalize s) = normalize s.
Proof.
  unfold normalize. rewrite split_join; [done|].
  apply split_from_words. constructor.
Qed.

Lemma join_words_ends (ws : list string) :
  Forall (fun w => is_word w = true) ws -> ws <> [] ->
  (exists c s, join " " ws = String c s /\ isspace c = false) /\
  (exists c l, rev (list_ascii_of_string (join " " ws)) = c :: l /\ isspace c = false).
Proof.
  unfold join.
  induction 1 as [|w ws [Hne Hw]%andb_true_iff Hws IH]; [done|]. intros _.
  rewrite forallb_forall in Hw.
  assert (exists c s, w = String c s /\ isspace c = false) as (c & s & -> & Hc).
  { destruct w as [|c s]; [done|]. exists c, s. split; [done|].
    apply negb_true_iff, Hw. by left. }
  assert (exists c' l, rev (list_ascii_of_string (String c s)) = c' :: l /\
            isspace c' = false) as (c' & l & Hrev & Hc').
  { destruct (rev (list_ascii_of_string (String c s))) as [|c' l] eqn:Hrev.
    - apply (f_equal (@length ascii)) in Hrev. by rewrite length_rev in Hrev.
    - exists c', l. split; [done|]. apply negb_true_iff, Hw, in_rev.
      rewrite Hrev. by left. }
  destruct ws as [|w' ws].
  - cbn [String.concat]. split; [by exists c, s|by exists c', l].
  - change (String.concat " " (String c s :: w' :: ws))
      with (String c s +:+ String " " (String.concat " " (w' :: ws))).
    destruct IH as [_ (c2 & l2 & Hrev2 & Hc2)]; [done|]. split.
    + rewrite append_cons. by eexists _, _.
    + rewrite chars_append. cbn [list_ascii_of_string].
      rewrite rev_app_distr. cbn [rev]. rewrite Hrev2. cbn. by eexists _, _.
Qed.

(** Normalized text has no whitespace at either end. *)
Lemma strip_normalize (s : string) : strip (normalize s) = normalize s.
Proof.
  unfold normalize. destruct (split s) as [|w ws] eqn:Hsplit; [done|].
  assert (Forall (fun w => is_word w = true) (w :: ws)) as Hwords.
  { rewrite <- Hsplit. apply split_from_words. constructor. }
  destruct (join_words_ends (w :: ws) Hwords) as
    [(c & t & Hhead & Hc) (c' & l & Hlast & Hc')]; [done|].
  unfold strip, strip_by. rewrite Hhead. cbn [lstrip_by]. rewrite Hc.
  rewrite <- Hhead. unfold str_rev at 2. rewrite Hlast. cbn [string_of_list_ascii lstrip_by].
  rewrite Hc'. change (String c' (string_of_list_ascii l))
    with (string_of_list_ascii (c' :: l)).
  rewrite <- Hlast. fold (str_rev (join " " (w :: ws))). apply str_rev_involutive.
Qed.

Lemma normalize_empty (s : string) : normalize s = "" <-> blank s = true.
Proof.
  split; [|apply normalize_blank].
  unfold normalize. destruct (split s) as [|w ws] eqn:Hsplit.
  - intros _. by apply split_from_nil in Hsplit as [_ ?].
  - assert (Forall (fun w => is_word w = true) (w :: ws)) as Hwords.
    { rewrite <- Hsplit. apply split_from_words. constructor. }
    destruct (join_words_ends (w :: ws) Hwords) as [(c & t & -> & _) _]; done.
Qed.

(** What [extract_pages_text] returns: one pair per page, numbered from 1
    in page order; each text is whitespace-normalized, so normalizing or
    stripping it again changes nothing, and it is empty exactly when the
    page gave no text or only whitespace. *)
Theorem extract_pages_text_normalized (pdf : Os.Pdf) :
  length (extract_pages_text pdf) = length pdf /\
  (extract_pages_text pdf).*1 = seq 1 (length pdf) /\
  forall i page, pdf !! i = Some page ->
    exists t,
      extract_pages_text pdf !! i = Some (i + 1, t) /\
      split t = split (page_text page) /\
      normalize t = t /\ strip t = t /\
      (t = "" <-> blank (page_text page) = true).
Proof.
  unfold extract_pages_text. split; [by rewrite length_imap|]. split.
  - apply list_eq. intros i. rewrite list_lookup_fmap, list_lookup_imap.
    destruct (pdf !! i) as [page|] eqn:Hpage; cbn.
    + rewrite lookup_seq_lt by (by eapply lookup_lt_Some). f_equal. lia.
    + rewrite lookup_seq_ge; [done|]. by apply lookup_ge_None.
  - intros i page Hpage. exists (normalize (page_text page)).
    rewrite list_lookup_imap, Hpage. cbn. split; [done|]. split.
    { unfold normalize. apply split_join, split_from_words. constructor. }
    split; [apply normalize_idempotent|]. split; [apply strip_normalize|].
    apply normalize_empty.
Qed.

End normalize_facts.

(** * The health probe *)

Section more_build_facts.
Variable files : dict string.
Variable fit : list string -> result Sk.Fitted.
Variable fs : Os.FileSystem.
Hypothesis files_nodup : NoDup files.*1.

Lemma doc_pages_count doc : length (doc_pages fs doc) = page_count fs doc.
Proof.
  unfold doc_pages, page_count, extract_pages_text.
  destruct (fs doc.2); [|done]. by rewrite length_fmap, length_imap.
Qed.

Lemma all_pages_count (docs : dict string) :
  length (all_pages fs docs) = sum_list (page_count fs <$> docs).
Proof.
  induction docs as [|doc docs IH]; [done|].
  rewrite all_pages_cons, length_app, doc_pages_count, IH. done.
Qed.

(** After a build the health probe reports status [ok] and the number of
    pages of all the files that exist, a missing file counting for none;
    that number is the row count of the matrix, and 0 when there is no
    matrix. *)
Theorem health_counts_pages idx :
  build_index files fit fs = Ok idx ->
  health idx
  = ({| status := "ok"; indexed_pages := sum_list (page_count fs <$> files) |}, 200) /\
  match tfidf_matrix idx with
  | Some matrix => length matrix = sum_list (page_count fs <$> files)
  | None => sum_list (page_count fs <$> files) = 0
  end.
Proof.
  intros Hbuild.
  destruct (build_index_Ok _ _ _ files_nodup _ Hbuild) as (Hpages & _ & Hvec).
  unfold health. rewrite Hpages, all_pages_count. split; [done|].
  rewrite <- all_pages_count.
  destruct (all_pages fs files) as [|e pages] eqn:Hall.
  - destruct Hvec as [_ ->]. done.
  - destruct Hvec as (v & _ & _ & ->). unfold all_texts.
    by rewrite Hall, !length_fmap.
Qed.

End more_build_facts.

(** * More on searching *)

Section rounding_facts.

Lemma round_half_even_near (q : Q) :
  (q - (1 # 2) <= inject_Z (round_half_even q) <= q + (1 # 2))%Q.
Proof.
  pose proof (Qfloor_le q) as Hlo. pose proof (Qlt_floor q) as Hhi.
  rewrite inject_Z_plus in Hhi. change (inject_Z 1) with 1%Q in Hhi.
  destruct (round_half_even_cases q) as [[-> Hle]|[-> Hge]].
  - split; lra.
  - rewrite inject_Z_plus. change (inject_Z 1) with 1%Q. split; lra.
Qed.

(** [round(x, 4)] is within half a unit of the fourth decimal of [x]. *)
Lemma round4_near (q : Q) :
  (q - (1 # 20000) <= round4 q <= q + (1 # 20000))%Q.
Proof.
  pose proof (round_half_even_near (q * 10000)) as [Hlo Hhi].
  assert (round4 q * 10000 == inject_Z (round_half_even (q * 10000)))%Q as Heq.
  { unfold round4, Qeq, Qmult, inject_Z. cbn. lia. }
  rewrite <- Heq in Hlo, Hhi. split; lra.
Qed.

End rounding_facts.

Section more_search_claims.
Variable files : dict string.
Variable fit : list string -> result Sk.Fitted.
Variable argsort : list Q -> list nat.
Variable fs : Os.FileSystem.
Hypothesis files_nodup : NoDup files.*1.
Hypothesis argsort_ok : Np.argsort_spec argsort.

(** The score of a returned item differs by at most 0.00005 from the
    similarity of the item's own page to the query: the page of the item's
    document and page number, which stands at position [p] of the corpus,
    the similarity being the inner product of the query's vector and row
    [p] of the matrix. *)
Theorem search_score_rounding idx r query k :
  build_index files fit fs = Ok idx ->
  pages_data idx <> [] ->
  get_query r = Ok query ->
  truthy query = true ->
  get_top_k r = Ok k ->
  exists results summary transform matrix,
    api_search files argsort idx r = Ok (SearchBody query results summary, 200) /\
    vectorizer idx = Some transform /\ tfidf_matrix idx = Some matrix /\
    forall key items item, (key, items) ∈ results -> item ∈ items ->
      exists positions p e row,
        dict_find key (doc_page_index idx) = Some positions /\
        positions !! (item_page_no item - 1) = Some p /\
        pages_data idx !! p = Some e /\
        doc_key e = key /\ page_no e = item_page_no item /\
        matrix !! p = Some row /\
        (Np.dot (transform query) row - (1 # 20000) <= score item
         <= Np.dot (transform query) row + (1 # 20000))%Q.
Proof.
  intros Hbuild Hne Hq Htruthy Hk.
  destruct (build_index_Ok _ _ _ files_nodup _ Hbuild) as (Hpages & Hindex & Hvec).
  rewrite Hpages in Hne.
  destruct (all_pages fs files) as [|e0 pages] eqn:Hall; [done|].
  destruct Hvec as (v & _ & Hv & Hm). rewrite <- Hall in *. clear Hall e0 pages.
  eexists _, _, v, (v <$> all_texts fs files).
  split; [apply (api_search_Ok files fit argsort fs); try done; by rewrite Hpages|].
  do 2 (split; [done|]).
  intros key items item Hitems Hitem.
  destruct (search_item_origin files fit argsort fs files_nodup argsort_ok
              _ _ _ _ _ _ Hbuild Hitems Hitem)
    as (positions & p & e & Hfind & Hp & He & ->).
  destruct (built_entry_source files fit fs files_nodup idx key positions p e
              Hbuild Hfind Hp He) as (path & pdf & i & page & _ & _ & Hi & _ & ->).
  assert (exists row, (v <$> all_texts fs files) !! p = Some row) as [row Hrow].
  { apply lookup_lt_is_Some_2. unfold all_texts. rewrite !length_fmap, <- Hpages.
    by eapply lookup_lt_Some. }
  eexists positions, p, _, row. cbn [item_of item_page_no page_no doc_key score].
  replace (i + 1 - 1) with i by lia.
  do 6 (split; [done|]).
  rewrite <- (similarities_lookup idx query v _ p row Hv Hm Hrow). apply round4_near.
Qed.

(** On a built index a search raises only for what is wrong with the
    request: a query that is no string, or a [top_k] that [int] rejects.
    No lookup into the corpus, the matrix or the configuration fails. *)
Theorem search_raises_only_on_request idx r e :
  build_index files fit fs = Ok idx ->
  api_search files argsort idx r = Raise e ->
  (get_query r = Raise e /\ e = AttributeError) \/
  (exists query, get_query r = Ok query /\ get_top_k r = Raise e /\
     (e = ValueError \/ e = TypeError \/ e = OverflowError)).
Proof.
  intros Hbuild Hraise.
  destruct (get_query r) as [query|e'] eqn:Hq.
  - right. exists query. split; [done|].
    destruct (get_top_k r) as [k|e''] eqn:Hk.
    + exfalso. destruct (truthy query) eqn:Htruthy.
      * destruct (pages_data idx) as [|e0 pages] eqn:Hpages.
        -- by rewrite (api_search_no_pages files fit argsort fs files_nodup
                         idx r query k) in Hraise.
        -- rewrite (api_search_Ok files fit argsort fs files_nodup argsort_ok
                      idx r query k) in Hraise; [done..| |done|done|done].
           by rewrite Hpages.
      * unfold api_search in Hraise. rewrite Hq, Hk in Hraise. cbn in Hraise.
        by rewrite Htruthy in Hraise.
    + assert (e = e'') as <-.
      { unfold api_search in Hraise. rewrite Hq, Hk in Hraise. cbn in Hraise. congruence. }
      split; [done|]. by eapply get_top_k_raises.
  - left. assert (e = e') as <-.
    { unfold api_search in Hraise. rewrite Hq in Hraise. cbn in Hraise. congruence. }
    split; [done|]. unfold get_query in Hq.
    destruct (query_field r) as [[]|]; cbn in Hq; congruence.
Qed.

End more_search_claims.

(** * The pages and the links of a result list *)

Section path_facts.

Lemma str_rev_append (s t : string) : str_rev (s +:+ t) = str_rev t +:+ str_rev s.
Proof.
  unfold str_rev. rewrite chars_append, rev_app_distr.
  generalize (rev (list_ascii_of_string t)) as l.
  generalize (rev (list_ascii_of_string s)) as l'.
  intros l' l. induction l as [|c l IH]; [done|]. cbn. by rewrite IH.
Qed.

Lemma basename_from_slash (cur : list ascii) (dir name : string) :
  Os.basename_from cur (dir +:+ String "/" name) = Os.basename_from [] name.
Proof.
  revert cur. induction dir as [|c dir IH]; intros cur; [done|].
  rewrite append_cons. cbn. by destruct (Ascii.eqb c "/").
Qed.

Lemma join2_relative (path b : string) :
  match b with String "/" _ => false | _ => true end = true ->
  Os.join2 path b =
  if (String.eqb path "" || Os.ends_with_slash path)%bool then path +:+ b
  else path +:+ "/" +:+ b.
Proof.
  destruct b as [|c b]; [done|].
  destruct c as [[] [] [] [] [] [] [] []]; done.
Qed.

Lemma append_assoc (s t u : string) : (s +:+ t) +:+ u = s +:+ t +:+ u.
Proof. induction s as [|c s IH]; [done|]. by rewrite !append_cons, IH. Qed.

(** [os.path.join(dir, "site")] ends in [site], whatever [dir] is. *)
Lemma join2_site (dir : string) : exists prefix, Os.join2 dir "site" = prefix +:+ "site".
Proof.
  rewrite join2_relative by done.
  destruct (_ || _)%bool; [by exists dir|]. exists (dir +:+ "/").
  by rewrite append_assoc.
Qed.

Lemma basename_in_site (here name : string) :
  match name with String "/" _ => false | _ => true end = true ->
  Os.basename (Os.path_join (SITE_PDF_FOLDER here) [name]) = Os.basename name.
Proof.
  intros Hname. unfold SITE_PDF_FOLDER, Os.path_join. cbn [foldl].
  destruct (join2_site (Os.join2 here "..")) as [prefix ->].
  rewrite join2_relative by done.
  assert (String.eqb (prefix +:+ "site") "" = false) as ->.
  { by destruct prefix. }
  assert (Os.ends_with_slash (prefix +:+ "site") = false) as ->.
  { unfold Os.ends_with_slash. by rewrite str_rev_append. }
  cbn [orb]. unfold Os.basename.
  change (String "/" EmptyString +:+ name) with (String "/" name).
  apply basename_from_slash.
Qed.

End path_facts.

(** Wherever the application is installed, the configured documents are
    the files [PMBOK7.pdf], [PRINCE2.pdf] and [ISO21500.pdf] of the site
    folder: the base names of the configured paths, which the links of a
    response start with, do not depend on the directory of [app.py]. *)
Theorem configured_file_names (here : string) :
  (fun doc => (doc.1, Os.basename doc.2)) <$> PDF_FILES here
  = [("PMBOK", "PMBOK7.pdf"); ("PRINCE2", "PRINCE2.pdf"); ("ISO21500", "ISO21500.pdf")].
Proof.
  unfold PDF_FILES. cbn [fmap list_fmap fst snd].
  by rewrite !basename_in_site.
Qed.

Section order_facts.
Variable argsort : list Q -> list nat.
Hypothesis argsort_ok : Np.argsort_spec argsort.

Lemma NoDup_take_of {A} (n : nat) (l : list A) : NoDup l -> NoDup (take n l).
Proof.
  intros Hl. rewrite <- (take_drop n l) in Hl. by apply NoDup_app in Hl as [? _].
Qed.

Lemma top_idx_order_NoDup k (scores : list Q) : NoDup (top_idx_order argsort k scores).
Proof.
  unfold top_idx_order. destruct (slice_to_prefix k (rev (argsort scores))) as [n ->].
  apply NoDup_take_of. rewrite <- Permutation_rev, (Np.argsort_perm _ argsort_ok scores).
  apply NoDup_seq.
Qed.

Lemma top_idx_order_all k (scores : list Q) :
  (Z.of_nat (length scores) <= k)%Z ->
  top_idx_order argsort k scores ≡ₚ seq 0 (length scores).
Proof.
  intros Hk. unfold top_idx_order. rewrite slice_to_all.
  - by rewrite <- Permutation_rev, (Np.argsort_perm _ argsort_ok scores).
  - by rewrite length_rev, (argsort_length argsort argsort_ok).
Qed.

End order_facts.

Section page_number_claims.
Variable files : dict string.
Variable fit : list string -> result Sk.Fitted.
Variable argsort : list Q -> list nat.
Variable fs : Os.FileSystem.
Hypothesis files_nodup : NoDup files.*1.
Hypothesis argsort_ok : Np.argsort_spec argsort.

Lemma built_positions idx key path :
  build_index files fit fs = Ok idx ->
  (key, path) ∈ files ->
  exists positions,
    dict_find key (doc_page_index idx) = Some positions /\
    length positions = page_count fs (key, path).
Proof.
  intros (_ & Hindex & _)%build_index_Ok Hin; [|done].
  destruct (layout_find fs files key path files_nodup Hin) as (before & after & _ & Hfind & _).
  eexists. rewrite Hindex. split; [done|].
  by rewrite length_seq, doc_pages_count.
Qed.

(** The items of a document's list are distinct pages of its file, numbered
    from 1 to the page count; a [top_k] of at least the page count lists
    every page of the file exactly once. *)
Theorem search_lists_distinct_pages idx r query k :
  build_index files fit fs = Ok idx ->
  pages_data idx <> [] ->
  get_query r = Ok query ->
  truthy query = true ->
  get_top_k r = Ok k ->
  exists results summary,
    api_search files argsort idx r = Ok (SearchBody query results summary, 200) /\
    forall key path, (key, path) ∈ files ->
      exists items,
        dict_find key results = Some items /\
        NoDup (item_page_no <$> items) /\
        (forall n, n ∈ item_page_no <$> items -> 1 <= n <= page_count fs (key, path)) /\
        ((Z.of_nat (page_count fs (key, path)) <= k)%Z ->
           item_page_no <$> items ≡ₚ seq 1 (page_count fs (key, path))).
Proof.
  intros Hbuild Hne Hq Htruthy Hk.
  eexists _, _. split; [by apply (api_search_Ok files fit argsort fs)|].
  intros key path Hin.
  destruct (built_positions idx key path Hbuild Hin) as (positions & Hfind & Hlen).
  eexists. split; [by apply (search_results_find files fit argsort fs)|].
  rewrite (ranking_page_numbers files fit argsort fs files_nodup argsort_ok
             idx _ k key positions Hbuild Hfind).
  assert (length (scores_at (similarities idx query) positions)
          = page_count fs (key, path)) as Hscores.
  { unfold scores_at. by rewrite length_fmap. }
  split; [|split].
  - apply (NoDup_fmap_2 S), top_idx_order_NoDup; done.
  - intros n (rp & -> & Hrp)%list_elem_of_fmap.
    apply (top_idx_order_elem argsort argsort_ok) in Hrp. lia.
  - intros Hall. rewrite top_idx_order_all, Hscores by (done || lia).
    by rewrite fmap_S_seq.
Qed.

(** The link of an item is the base name of the document's configured path,
    [#page=] and the item's page number in decimal. *)
Theorem search_item_link idx r query k :
  build_index files fit fs = Ok idx ->
  pages_data idx <> [] ->
  get_query r = Ok query ->
  truthy query = true ->
  get_top_k r = Ok k ->
  exists results summary,
    api_search files argsort idx r = Ok (SearchBody query results summary, 200) /\
    forall key path items item,
      (key, path) ∈ files -> (key, items) ∈ results -> item ∈ items ->
      pdf_link item
      = Os.basename path +:+ "#page=" +:+ str_of_nat (item_page_no item).
Proof.
  intros Hbuild Hne Hq Htruthy Hk.
  eexists _, _. split; [by apply (api_search_Ok files fit argsort fs)|].
  intros key path items item Hin Hitems Hitem.
  destruct (search_item_origin files fit argsort fs files_nodup argsort_ok
              _ _ _ _ _ _ Hbuild Hitems Hitem)
    as (positions & p & e & _ & _ & _ & ->).
  unfold dict_get. by rewrite (dict_find_elem key path files).
Qed.

End page_number_claims.

(** * More on the summary *)

Section summary_value_facts.

Lemma dict_set_Forall {V} (P : V -> Prop) k v (d : dict V) :
  Forall (fun kv => P kv.2) d -> P v -> Forall (fun kv => P kv.2) (dict_set k v d).
Proof.
  induction d as [|[k' v'] d IH]; cbn; intros Hd Hv.
  - by repeat constructor.
  - apply Forall_cons in Hd as [Hv' Hd].
    destruct (String.eqb k k'); constructor; auto.
Qed.

Lemma doc_scores_Forall (P : nat -> Prop) query (snippets : dict string) :
  Forall (fun d => P (overlap query d.2)) snippets ->
  Forall (fun d => P d.2) (doc_scores query snippets).
Proof.
  unfold doc_scores. generalize (@nil (string * nat)) (Forall_nil_2 (fun d : string * nat => P d.2)).
  induction snippets as [|[doc text] snippets IH]; intros acc Hacc Hs;
    cbn [foldl]; [exact Hacc|].
  apply Forall_cons in Hs as [Htext Hs]. cbn in Htext.
  apply IH; [|done]. by apply dict_set_Forall.
Qed.

Lemma ranked_Forall (P : nat -> Prop) query (snippets : dict string) :
  Forall (fun d => P (overlap query d.2)) snippets ->
  Forall (fun d => P d.2) (ranked query snippets).
Proof.
  intros Hs. unfold ranked. rewrite sorted_reverse_perm. by apply doc_scores_Forall.
Qed.

Lemma relevance_line_zero (l : list (string * nat)) :
  Forall (fun d => d.2 = 0) l -> relevance_line l = NO_DOMINANT.
Proof.
  destruct l as [|[doc top] l]; [done|]. intros [Htop _]%Forall_cons.
  cbn in Htop. by subst.
Qed.

Lemma overlap_no_query_tokens query text : long_words query = [] -> overlap query text = 0.
Proof.
  intros Hq. unfold overlap, q_tokens. rewrite Hq.
  apply size_empty_iff, elem_of_equiv_empty.
  intros x [Hx _]%elem_of_intersection. exact (not_elem_of_empty x Hx).
Qed.

Lemma overlap_no_doc_tokens query text : long_words text = [] -> overlap query text = 0.
Proof.
  intros Ht. unfold overlap, doc_tokens. rewrite Ht.
  apply size_empty_iff, elem_of_equiv_empty.
  intros x [_ Hx]%elem_of_intersection. exact (not_elem_of_empty x Hx).
Qed.

Lemma long_words_short (s : string) :
  Forall (fun w => String.length w <= 2) (split s) -> long_words s = [].
Proof.
  unfold long_words. induction 1 as [|w ws Hw _ IH]; [done|].
  rewrite filter_cons_False by lia. done.
Qed.

Lemma long_words_blank (s : string) : blank s = true -> long_words s = [].
Proof. intros Hs. unfold long_words, split. by rewrite split_from_blank. Qed.

Lemma doc_line_blank (snippets : dict string) doc :
  Forall (fun d => blank d.2 = true) snippets -> doc_line snippets doc = [].
Proof.
  intros Hs. unfold doc_line, dict_get.
  destruct (dict_find doc snippets) as [snippet|] eqn:Hfind; [|done].
  apply dict_find_Some_elem in Hfind.
  rewrite Forall_forall in Hs. specialize (Hs _ Hfind). cbn in Hs.
  by rewrite strip_blank.
Qed.

Lemma summary_lines_blank query (snippets : dict string) :
  Forall (fun d => blank d.2 = true) snippets ->
  summary_lines query snippets = bare_summary query.
Proof.
  intros Hs. unfold summary_lines, bare_summary.
  rewrite relevance_line_zero.
  2:{ apply (ranked_Forall (fun n => n = 0)). eapply Forall_impl; [exact Hs|].
      intros d Hd. by apply overlap_no_doc_tokens, long_words_blank. }
  assert (flat_map (fun '(doc, _) => doc_line snippets doc) (ranked query snippets) = [])
    as ->; [|done].
  induction (ranked query snippets) as [|[doc n] l IH]; [done|].
  cbn [flat_map]. by rewrite doc_line_blank, IH.
Qed.

End summary_value_facts.

(** A query without a word of three characters or more has no overlap with
    any document: whatever the excerpts are, the second line of the
    summary says that no document dominates. *)
Theorem short_query_no_dominant query (snippets : dict string) :
  Forall (fun w => String.length w <= 2) (split query) ->
  summary_lines query snippets !! 1 = Some NO_DOMINANT.
Proof.
  intros Hshort. cbn. f_equal. apply relevance_line_zero, (ranked_Forall (fun n => n = 0)).
  apply Forall_forall. intros d _.
  by apply overlap_no_query_tokens, long_words_short.
Qed.

(** * The order of the documents in the summary *)

Section stable_facts.
Context {A : Type} (key : A -> nat).

Lemma filter_insert_desc (n : nat) (x : A) (l : list A) :
  filter (fun a => key a = n) (insert_desc key x l)
  = filter (fun a => key a = n) (x :: l).
Proof.
  induction l as [|y l IH]; [done|]. cbn [insert_desc].
  destruct (Nat.ltb_spec (key x) (key y)) as [Hlt|Hge]; [|done].
  rewrite (filter_cons _ y), IH, !(filter_cons _ x), !(filter_cons _ y).
  destruct (decide (key x = n)), (decide (key y = n)); try done. lia.
Qed.

(** [sorted(..., reverse=True)] is stable: the elements of one key keep
    their order. *)
Lemma filter_sorted_reverse (n : nat) (l : list A) :
  filter (fun a => key a = n) (sorted_reverse key l) = filter (fun a => key a = n) l.
Proof.
  induction l as [|x l IH]; [done|].
  change (sorted_reverse key (x :: l)) with (insert_desc key x (sorted_reverse key l)).
  by rewrite filter_insert_desc, !(filter_cons _ x), IH.
Qed.

Lemma filter_head_split (P : A -> Prop) `{!forall a, Decision (P a)} (l : list A) x t :
  filter P l = x :: t ->
  exists before after, l = before ++ x :: after /\ Forall (fun a => ~ P a) before.
Proof.
  induction l as [|y l IH]; [done|]. rewrite filter_cons.
  destruct (decide (P y)) as [Hy|Hy].
  - intros [= -> _]. by exists [], l.
  - intros (before & after & -> & Hbefore)%IH.
    exists (y :: before), after. split; [done|]. by constructor.
Qed.

End stable_facts.

(** The summary ranks the documents by overlap, and documents with the same
    overlap stay in the order of the dictionary: the document named first
    is the first one of the dictionary that has the largest overlap. *)
Theorem summary_order_stable query (snippets : dict string) :
  NoDup snippets.*1 ->
  (forall n, filter (fun d => d.2 = n) (ranked query snippets)
             = filter (fun d => d.2 = n) (overlaps query snippets)) /\
  (forall d rest, ranked query snippets = d :: rest ->
     exists before after,
       overlaps query snippets = before ++ d :: after /\
       Forall (fun d' => d'.2 < d.2) before /\
       Forall (fun d' => d'.2 <= d.2) after).
Proof.
  intros Hnd.
  assert (forall n, filter (fun d => d.2 = n) (ranked query snippets)
                    = filter (fun d => d.2 = n) (overlaps query snippets)) as Hstable.
  { intros n. unfold ranked. by rewrite filter_sorted_reverse, doc_scores_overlaps. }
  split; [done|]. intros d rest Hranked.
  assert (Forall (fun d' => d'.2 <= d.2) (overlaps query snippets)) as Hmax.
  { rewrite <- (doc_scores_overlaps query snippets Hnd),
      <- (sorted_reverse_perm snd (doc_scores query snippets)).
    pose proof (sorted_reverse_sorted snd (doc_scores query snippets)) as Hsorted.
    fold (ranked query snippets). fold (ranked query snippets) in Hsorted.
    rewrite Hranked in Hsorted |- *.
    apply StronglySorted_cons in Hsorted as [Hd _]. by constructor. }
  specialize (Hstable d.2). rewrite Hranked, filter_cons_True in Hstable by done.
  symmetry in Hstable.
  destruct (filter_head_split _ _ _ _ Hstable) as (before & after & Heq & Hbefore).
  exists before, after. split; [done|]. rewrite Heq in Hmax.
  apply Forall_app in Hmax as [Hb Ha]. apply Forall_cons in Ha as [_ Ha].
  split; [|done]. rewrite Forall_forall in Hb, Hbefore |- *.
  intros d' Hd'. specialize (Hb _ Hd'). specialize (Hbefore _ Hd'). cbn in *. lia.
Qed.

(** * Case and punctuation *)

Section case_facts.

Lemma isspace_lower_char (c : ascii) : isspace (lower_char c) = isspace c.
Proof. destruct c as [[] [] [] [] [] [] [] []]; vm_compute; reflexivity. Qed.

Lemma lower_char_idempotent (c : ascii) : lower_char (lower_char c) = lower_char c.
Proof. destruct c as [[] [] [] [] [] [] [] []]; vm_compute; reflexivity. Qed.

Lemma lower_idempotent (s : string) : lower (lower s) = lower s.
Proof. induction s as [|c s IH]; cbn; [done|]. by rewrite lower_char_idempotent, IH. Qed.

Lemma lower_length (s : string) : String.length (lower s) = String.length s.
Proof. induction s as [|c s IH]; cbn; [done|]. by rewrite IH. Qed.

Lemma lower_of_list (l : list ascii) :
  lower (string_of_list_ascii l) = string_of_list_ascii (lower_char <$> l).
Proof. induction l as [|c l IH]; cbn; [done|]. by rewrite IH. Qed.

Lemma rev_fmap {A B} (f : A -> B) (l : list A) : rev (f <$> l) = f <$> rev l.
Proof. induction l as [|x l IH]; cbn; [done|]. by rewrite IH, fmap_app. Qed.

Lemma flush_lower (cur : list ascii) : flush (lower_char <$> cur) = lower <$> flush cur.
Proof.
  destruct cur as [|c cur]; [done|].
  change (flush (lower_char <$> c :: cur))
    with [string_of_list_ascii (rev (lower_char <$> c :: cur))].
  change (flush (c :: cur)) with [string_of_list_ascii (rev (c :: cur))].
  cbn [fmap list_fmap]. by rewrite lower_of_list, <- rev_fmap.
Qed.

Lemma split_from_lower (cur : list ascii) (s : string) :
  split_from (lower_char <$> cur) (lower s) = lower <$> split_from cur s.
Proof.
  revert cur. induction s as [|c s IH]; intros cur; cbn [lower split_from].
  - apply flush_lower.
  - rewrite isspace_lower_char. destruct (isspace c).
    + rewrite fmap_app, flush_lower. f_equal. apply (IH []).
    + apply (IH (c :: cur)).
Qed.

Lemma long_words_lower (s : string) : long_words (lower s) = lower <$> long_words s.
Proof.
  unfold long_words, split.
  change (split_from [] (lower s)) with (split_from (lower_char <$> []) (lower s)).
  rewrite (split_from_lower [] s).
  induction (split_from [] s) as [|w ws IH]; [done|].
  cbn [fmap list_fmap]. rewrite (filter_cons _ (lower w)), (filter_cons _ w), lower_length.
  destruct (decide (2 < String.length w)); cbn [fmap list_fmap]; by rewrite <- IH.
Qed.

End case_facts.

(** The overlap of a query and a text does not depend on the case of
    either: lowering the query, or the text, leaves it as it is. *)
Theorem overlap_ignores_case query text :
  overlap (lower query) text = overlap query text /\
  overlap query (lower text) = overlap query text.
Proof.
  assert (q_tokens (lower query) = q_tokens query) as Hq.
  { unfold q_tokens. rewrite long_words_lower, <- list_fmap_compose. f_equal.
    apply Forall_fmap_ext_1, Forall_forall. intros w _. cbn. apply lower_idempotent. }
  assert (doc_tokens (lower text) = doc_tokens text) as Ht.
  { unfold doc_tokens. rewrite long_words_lower, <- list_fmap_compose. f_equal.
    apply Forall_fmap_ext_1, Forall_forall. intros w _. cbn. by rewrite lower_idempotent. }
  unfold overlap. by rewrite Hq, Ht.
Qed.

Section strip_facts.
Variable p : ascii -> bool.

Lemma lstrip_by_starts (s : string) : starts_with p (lstrip_by p s) = false.
Proof.
  induction s as [|c s IH]; cbn; [done|].
  destruct (p c) eqn:Hc; [done|]. cbn. by rewrite Hc.
Qed.

Lemma lstrip_by_suffix (s : string) : exists prefix, s = prefix +:+ lstrip_by p s.
Proof.
  induction s as [|c s [prefix IH]]; cbn; [by exists ""|].
  destruct (p c); [|by exists ""].
  exists (String c prefix). by rewrite append_cons, <- IH.
Qed.

Lemma strip_by_ends (s : string) : ends_with p (strip_by p s) = false.
Proof.
  unfold ends_with, strip_by. rewrite str_rev_involutive. apply lstrip_by_starts.
Qed.

Lemma strip_by_starts (s : string) : starts_with p (strip_by p s) = false.
Proof.
  unfold strip_by.
  pose proof (lstrip_by_starts s) as Hfirst.
  destruct (lstrip_by_suffix (str_rev (lstrip_by p s))) as [prefix Hsuffix].
  apply (f_equal str_rev) in Hsuffix.
  rewrite str_rev_involutive, str_rev_append in Hsuffix.
  destruct (str_rev (lstrip_by p (str_rev (lstrip_by p s)))) as [|c rest]; [done|].
  rewrite Hsuffix in Hfirst. done.
Qed.

End strip_facts.

(** A word counted in the overlap neither starts nor ends with one of the
    characters [.,()]: they are stripped from the words of the document
    but not from those of the query, so a query word that carries one at
    an end matches nothing. *)
Theorem overlap_skips_punctuated_words query text w :
  w ∈ q_tokens query ∩ doc_tokens text ->
  starts_with punctuation w = false /\ ends_with punctuation w = false.
Proof.
  intros [_ Hw]%elem_of_intersection. unfold doc_tokens in Hw.
  apply elem_of_list_to_set, list_elem_of_fmap in Hw as (w' & -> & _).
  split; [apply strip_by_starts|apply strip_by_ends].
Qed.

(** * The texts of a built index, and the summary of a search *)

Section build_text_claims.
Variable files : dict string.
Variable fit : list string -> result Sk.Fitted.
Variable argsort : list Q -> list nat.
Variable fs : Os.FileSystem.
Hypothesis files_nodup : NoDup files.*1.
Hypothesis argsort_ok : Np.argsort_spec argsort.

Lemma all_pages_text e :
  e ∈ all_pages fs files -> exists page, text e = normalize (page_text page).
Proof.
  unfold all_pages. intros ([key path] & He & _)%list_elem_of_bind.
  apply list_elem_of_lookup in He as [i He].
  destruct (fs path) as [pdf|] eqn:Hfs.
  - destruct (proj1 (doc_pages_lookup fs key path pdf i e Hfs) He) as (page & _ & ->).
    by exists page.
  - unfold doc_pages in He. cbn in He. rewrite Hfs in He. by rewrite lookup_nil in He.
Qed.

Lemma vectorized_text_normalize (s : string) :
  vectorized_text (normalize s)
  = (if truthy (normalize s) then normalize s else NO_TEXT) /\
  blank (vectorized_text (normalize s)) = false.
Proof.
  unfold vectorized_text. rewrite strip_normalize. split; [done|].
  destruct (truthy (normalize s)) eqn:Htruthy; [|done].
  destruct (blank (normalize s)) eqn:Hblank; [|done].
  apply strip_blank in Hblank. rewrite strip_normalize in Hblank.
  by rewrite Hblank in Htruthy.
Qed.

(** Every text of a built index is whitespace-normalised: no leading or
    trailing blank, words separated by a single space. The vectorizer is
    fitted on these texts, the sentinel standing for the empty ones, so it
    never sees a blank string; the matrix row of a page is the vector of
    its text, or of the sentinel. *)
Theorem built_texts_normalized idx :
  build_index files fit fs = Ok idx ->
  pages_data idx <> [] ->
  exists transform matrix,
    fit (all_texts fs files) = Ok transform /\
    vectorizer idx = Some transform /\ tfidf_matrix idx = Some matrix /\
    Forall (fun t => blank t = false) (all_texts fs files) /\
    forall p e, pages_data idx !! p = Some e ->
      normalize (text e) = text e /\ strip (text e) = text e /\
      all_texts fs files !! p = Some (if truthy (text e) then text e else NO_TEXT) /\
      matrix !! p = Some (transform (if truthy (text e) then text e else NO_TEXT)).
Proof.
  intros Hbuild Hne.
  destruct (build_index_Ok _ _ _ files_nodup _ Hbuild) as (Hpages & _ & Hvec).
  rewrite Hpages in Hne |- *.
  destruct (all_pages fs files) as [|e0 pages] eqn:Hall; [done|].
  destruct Hvec as (v & Hfit & Hv & Hm). exists v, (v <$> all_texts fs files).
  do 3 (split; [done|]). rewrite <- Hall. split.
  - unfold all_texts. apply Forall_fmap, Forall_forall. intros e He. cbn.
    destruct (all_pages_text e He) as [page ->]. apply vectorized_text_normalize.
  - intros p e He.
    destruct (all_pages_text e) as [page Htext]; [by eapply list_elem_of_lookup_2|].
    rewrite Htext, normalize_idempotent, strip_normalize. do 2 (split; [done|]).
    assert (all_texts fs files !! p
            = Some (if truthy (normalize (page_text page))
                    then normalize (page_text page) else NO_TEXT)) as Htexts.
    { unfold all_texts. rewrite list_lookup_fmap, He. cbn. rewrite Htext.
      f_equal. apply vectorized_text_normalize. }
    split; [done|]. by rewrite list_lookup_fmap, Htexts.
Qed.

Lemma layout_has_pages offset (docs : dict string) :
  (filter has_pages (layout fs offset docs)).*1
  = (filter (fun doc => 0 < page_count fs doc) docs).*1.
Proof.
  revert offset. induction docs as [|doc docs IH]; intros offset; [done|].
  cbn [layout]. rewrite !filter_cons, doc_pages_count.
  destruct (page_count fs doc) as [|n] eqn:Hcount.
  - rewrite decide_False by (cbn; auto). rewrite decide_False by lia. apply IH.
  - rewrite decide_True by (cbn; auto). rewrite decide_True by lia.
    cbn [fmap list_fmap fst]. by rewrite IH.
Qed.

(** The summary of a search is made from the excerpts of the documents that
    have at least one page, in the order of the configuration: the excerpts
    of a document's list, joined by a space. A document whose file is
    missing or empty takes no part in it. *)
Theorem search_summary_documents idx r query k :
  build_index files fit fs = Ok idx ->
  pages_data idx <> [] ->
  get_query r = Ok query ->
  truthy query = true ->
  get_top_k r = Ok k ->
  exists results snippets,
    api_search files argsort idx r
    = Ok (SearchBody query results (synthesize_summary query snippets), 200) /\
    snippets.*1 = (filter (fun doc => 0 < page_count fs doc) files).*1 /\
    forall key snippet, (key, snippet) ∈ snippets ->
      exists items,
        dict_find key results = Some items /\
        snippet = join " " (text_snippet <$> items).
Proof.
  intros Hbuild Hne Hq Htruthy Hk.
  eexists _, _. split; [by apply (api_search_Ok files fit argsort fs)|].
  destruct (build_index_Ok _ _ _ files_nodup _ Hbuild) as (_ & Hindex & _).
  split.
  - unfold search_snippets. rewrite <- list_fmap_compose.
    change (fst ∘ _) with (@fst string (list nat)).
    rewrite Hindex. apply layout_has_pages.
  - intros key snippet ([key' positions] & [= -> ->] & Hdoc)%list_elem_of_fmap.
    apply list_elem_of_filter in Hdoc as [_ Hdoc].
    eexists. split; [|done].
    apply (search_results_find files fit argsort fs files_nodup idx query k key' positions
             Hbuild).
    apply dict_find_elem; [|done]. by rewrite Hindex, layout_keys.
Qed.

(** With [top_k] 0 a search succeeds with an empty list for every document
    and a summary of three lines: the heading, the line that no document
    dominates, and the closing note. *)
Theorem search_top_k_zero idx r query :
  build_index files fit fs = Ok idx ->
  pages_data idx <> [] ->
  get_query r = Ok query ->
  truthy query = true ->
  get_top_k r = Ok 0%Z ->
  api_search files argsort idx r
  = Ok (SearchBody query ((fun key => (key, [])) <$> files.*1)
          (join " " (bare_summary query)), 200).
Proof.
  intros Hbuild Hne Hq Htruthy Hk.
  rewrite (api_search_Ok files fit argsort fs files_nodup argsort_ok idx r query 0) by done.
  destruct (build_index_Ok _ _ _ files_nodup _ Hbuild) as (_ & Hindex & _).
  assert (search_results files argsort idx query 0 = (fun key => (key, [])) <$> files.*1)
    as ->.
  { unfold search_results. rewrite <- (layout_keys fs 0 files), <- Hindex.
    rewrite <- list_fmap_compose. apply Forall_fmap_ext_1, Forall_forall.
    by intros [key positions] _. }
  unfold synthesize_summary. rewrite summary_lines_blank; [done|].
  unfold search_snippets. apply Forall_fmap, Forall_forall. by intros [key positions] _.
Qed.

End build_text_claims.

(** * The claims on the small corpus *)

Lemma example_transform_normalized (t : string) :
  Sk.l2_normalized (Example.transform t).
Proof.
  unfold Example.transform.
  destruct (Example.has_word "scope" t), (Example.has_word "risk" t);
    (split; [repeat constructor; by vm_compute|]);
    first [left; by vm_compute | right; by repeat constructor].
Qed.

Lemma search_top_k_sorted_witness :
  exists results summary,
    api_search Example.files Np.insertion_argsort Example.index
      (Example.request "scope management" (Some (JInt 2)))
    = Ok (SearchBody "scope management" results summary, 200) /\
    results.*1 = Example.files.*1 /\
    forall key items, (key, items) ∈ results ->
      length items <= Z.to_nat 2 /\
      StronglySorted (fun a b => (score b <= score a)%Q) items.
Proof.
  apply (search_top_k_sorted Example.files Example.fit Np.insertion_argsort Example.fs
           (PDF_FILES_NoDup "") insertion_argsort_spec Example.index
           (Example.request "scope management" (Some (JInt 2))) "scope management" 2).
  - reflexivity.
  - discriminate.
  - reflexivity.
  - reflexivity.
  - reflexivity.
  - reflexivity.
Defined.

Lemma search_score_is_cosine_witness :
  exists results summary,
    api_search Example.files Np.insertion_argsort Example.index
      (Example.request "scope management" None)
    = Ok (SearchBody "scope management" results summary, 200) /\
    forall key items item, (key, items) ∈ results -> item ∈ items ->
      exists positions p e row c,
        dict_find key (doc_page_index Example.index) = Some positions /\
        p ∈ positions /\
        pages_data Example.index !! p = Some e /\
        item_page_no item = page_no e /\
        Example.matrix !! p = Some row /\
        Sk.is_cosine_similarity (Example.transform "scope management") row c /\
        score item = round4 c /\
        (0 <= score item <= 1)%Q.
Proof.
  apply (search_score_is_cosine Example.files Example.fit Np.insertion_argsort
           Example.fs (PDF_FILES_NoDup "") insertion_argsort_spec Example.index
           (Example.request "scope management" None) "scope management" TOP_K
           Example.transform Example.matrix).
  - reflexivity.
  - reflexivity.
  - reflexivity.
  - apply example_transform_normalized.
  - reflexivity.
  - reflexivity.
  - reflexivity.
Defined.

Lemma search_ties_follow_argsort_witness :
  exists results summary,
    api_search Example.files Np.insertion_argsort Example.index
      (Example.request "scope" None)
    = Ok (SearchBody "scope" results summary, 200) /\
    forall key positions,
      dict_find key (doc_page_index Example.index) = Some positions ->
      exists items,
        dict_find key results = Some items /\
        item_page_no <$> items
        = S <$> slice_to TOP_K
                  (rev (Np.insertion_argsort
                          (scores_at (similarities Example.index "scope") positions))) /\
        forall i j item item',
          i < j -> items !! i = Some item -> items !! j = Some item' ->
          exists a b,
            b < a /\
            Np.insertion_argsort (scores_at (similarities Example.index "scope") positions)
              !! a = Some (item_page_no item - 1) /\
            Np.insertion_argsort (scores_at (similarities Example.index "scope") positions)
              !! b = Some (item_page_no item' - 1).
Proof.
  apply (search_ties_follow_argsort Example.files Example.fit Np.insertion_argsort
           Example.fs (PDF_FILES_NoDup "") insertion_argsort_spec Example.index
           (Example.request "scope" None) "scope" TOP_K).
  - reflexivity.
  - discriminate.
  - reflexivity.
  - reflexivity.
  - reflexivity.
Defined.

(** C3 fails: the two pages of PRINCE2 have the same text, hence the same
    similarity to the query, and page 2 is listed before page 1. *)
Lemma search_ties_counterexample :
  exists pmbok summary first second,
    api_search Example.files Np.insertion_argsort Example.index
      (Example.request "scope" None)
    = Ok (SearchBody "scope"
            [("PMBOK", pmbok); ("PRINCE2", [first; second]); ("ISO21500", [])]
            summary, 200) /\
    (nth 4 (similarities Example.index "scope") 0
     == nth 5 (similarities Example.index "scope") 0)%Q /\
    (score first == score second)%Q /\
    item_page_no first = 2 /\ item_page_no second = 1.
Proof.
  do 4 eexists. split; [vm_compute; reflexivity|].
  split; [by vm_compute|]. split; [by vm_compute|]. split; reflexivity.
Qed.

Lemma top_k_not_validated_witness :
  ((ValueError = ValueError \/ ValueError = TypeError \/ ValueError = OverflowError) /\
   api_search Example.files Np.insertion_argsort Example.index
     (Example.request "scope" (Some (JStr "three"))) = Raise ValueError) /\
  exists results summary,
    api_search Example.files Np.insertion_argsort Example.index
      (Example.request "scope" (Some (JInt (-1))))
    = Ok (SearchBody "scope" results summary, 200) /\
    forall key positions,
      dict_find key (doc_page_index Example.index) = Some positions ->
      exists items full,
        dict_find key results = Some items /\
        dict_find key
          (search_results Example.files Np.insertion_argsort Example.index "scope"
             (Z.of_nat (length positions)))
        = Some (page_item Example.files Example.index
                  (similarities Example.index "scope") key <$> full) /\
        full ≡ₚ positions /\
        StronglySorted
          (fun p p' => (nth p' (similarities Example.index "scope") 0
                        <= nth p (similarities Example.index "scope") 0)%Q) full /\
        ((-1)%Z = 0%Z -> items = []) /\
        ((-1 < 0)%Z ->
           items = page_item Example.files Example.index
                     (similarities Example.index "scope") key
                     <$> take (length positions - Z.to_nat (- -1)) full).
Proof.
  split.
  - destruct (top_k_not_validated Example.files Example.fit Np.insertion_argsort
                Example.fs (PDF_FILES_NoDup "") insertion_argsort_spec Example.index
                (Example.request "scope" (Some (JStr "three")))) as (Hraise & _ & _).
    apply (Hraise "scope" ValueError); reflexivity.
  - destruct (top_k_not_validated Example.files Example.fit Np.insertion_argsort
                Example.fs (PDF_FILES_NoDup "") insertion_argsort_spec Example.index
                (Example.request "scope" (Some (JInt (-1))))) as (_ & _ & Hneg).
    apply (Hneg "scope" (-1)%Z).
    + reflexivity.
    + discriminate.
    + reflexivity.
    + reflexivity.
    + reflexivity.
    + discriminate.
Defined.

(** C4 fails: with [top_k] 0 the search succeeds with empty lists, and with
    a [top_k] that is no number it raises [ValueError]; neither is the
    [InvalidRequest] response. *)
Lemma top_k_counterexample :
  (exists summary,
     api_search Example.files Np.insertion_argsort Example.index
       (Example.request "scope" (Some (JInt 0)))
     = Ok (SearchBody "scope" [("PMBOK", []); ("PRINCE2", []); ("ISO21500", [])]
             summary, 200)) /\
  api_search Example.files Np.insertion_argsort Example.index
    (Example.request "scope" (Some (JInt 0))) <> Ok InvalidRequest /\
  api_search Example.files Np.insertion_argsort Example.index
    (Example.request "scope" (Some (JInt (-1)))) <> Ok InvalidRequest /\
  api_search Example.files Np.insertion_argsort Example.index
    (Example.request "scope" (Some (JStr "three"))) = Raise ValueError.
Proof.
  split; [eexists; vm_compute; reflexivity|].
  split; [by vm_compute|]. split; [by vm_compute|]. reflexivity.
Qed.

Lemma empty_corpus_index_unavailable_witness :
  exists idx,
    build_index Example.files Example.fit Example.no_files = Ok idx /\
    tfidf_matrix idx = None /\
    api_search Example.files Np.insertion_argsort idx (Example.request "anything" None)
    = Ok IndexUnavailable.
Proof.
  apply (empty_corpus_index_unavailable Example.files Example.fit Np.insertion_argsort
           Example.no_files (PDF_FILES_NoDup "") (Example.request "anything" None)
           "anything" TOP_K).
  - reflexivity.
  - reflexivity.
  - reflexivity.
  - reflexivity.
Defined.

Lemma blank_page_indexed_witness :
  exists positions p transform matrix,
    dict_find "PMBOK" (doc_page_index Example.index) = Some positions /\
    positions !! 2 = Some p /\
    pages_data Example.index !! p
      = Some {| doc_key := "PMBOK"; page_no := 2 + 1; text := "" |} /\
    Example.fit (all_texts Example.fs Example.files) = Ok transform /\
    all_texts Example.fs Example.files !! p = Some NO_TEXT /\
    vectorizer Example.index = Some transform /\
    tfidf_matrix Example.index = Some matrix /\
    matrix !! p = Some (transform NO_TEXT).
Proof.
  apply (blank_page_indexed Example.files Example.fit Example.fs (PDF_FILES_NoDup "")
           Example.index "PMBOK" "../site/PMBOK7.pdf"
           [Os.Text "project  scope management"; Os.Text "risk register template";
            Os.Failed; Os.Text " scope and risk"] 2 Os.Failed).
  - reflexivity.
  - by apply (bool_decide_unpack _).
  - reflexivity.
  - reflexivity.
  - reflexivity.
Defined.

Lemma build_index_partition_witness :
  match tfidf_matrix Example.index with
  | Some matrix =>
      length matrix = length (pages_data Example.index) /\ pages_data Example.index <> []
  | None => pages_data Example.index = []
  end /\
  (doc_page_index Example.index).*1 = Example.files.*1 /\
  concat (doc_page_index Example.index).*2 = seq 0 (length (pages_data Example.index)) /\
  (forall p, p < length (pages_data Example.index) ->
     exists key positions,
       dict_find key (doc_page_index Example.index) = Some positions /\ p ∈ positions /\
       forall key' positions',
         dict_find key' (doc_page_index Example.index) = Some positions' ->
         p ∈ positions' -> key' = key) /\
  (forall key positions i p,
     dict_find key (doc_page_index Example.index) = Some positions ->
     positions !! i = Some p ->
     exists e, pages_data Example.index !! p = Some e /\
       doc_key e = key /\ page_no e = i + 1) /\
  (forall key path,
     (key, path) ∈ Example.files -> Example.fs path = None ->
     dict_find key (doc_page_index Example.index) = Some []).
Proof.
  apply (build_index_partition Example.files Example.fit Example.fs
           (PDF_FILES_NoDup "") Example.index).
  reflexivity.
Defined.

Lemma search_excerpt_from_corpus_witness :
  exists results summary,
    api_search Example.files Np.insertion_argsort Example.index
      (Example.request "risk" (Some (JInt 4)))
    = Ok (SearchBody "risk" results summary, 200) /\
    forall key items item, (key, items) ∈ results -> item ∈ items ->
      exists path (pdf : Os.Pdf) i page p,
        (key, path) ∈ Example.files /\ Example.fs path = Some pdf /\
        pdf !! i = Some page /\
        item_page_no item = i + 1 /\
        text_snippet item = excerpt 600 (normalize (page_text page)) /\
        pages_data Example.index !! p
          = Some {| doc_key := key; page_no := i + 1;
                    text := normalize (page_text page) |} /\
        (blank (page_text page) = true ->
           all_texts Example.fs Example.files !! p = Some NO_TEXT /\
           text_snippet item = "") /\
        (text_snippet item = NO_TEXT -> normalize (page_text page) = NO_TEXT).
Proof.
  apply (search_excerpt_from_corpus Example.files Example.fit Np.insertion_argsort
           Example.fs (PDF_FILES_NoDup "") insertion_argsort_spec Example.index
           (Example.request "risk" (Some (JInt 4))) "risk" 4).
  - reflexivity.
  - discriminate.
  - reflexivity.
  - reflexivity.
  - reflexivity.
Defined.

(** C6 fails: PRINCE2 shares no token with the query, yet the line names
    it among the documents with strongest relevance. *)
Lemma summary_relevance_line_counterexample :
  summary_lines "scope" [("PMBOK", "scope statement"); ("PRINCE2", "risk register")] !! 1
  = Some "Documents with strongest relevance: PMBOK, PRINCE2." /\
  overlaps "scope" [("PMBOK", "scope statement"); ("PRINCE2", "risk register")]
  = [("PMBOK", 1); ("PRINCE2", 0)] /\
  strongest "scope" [("PMBOK", "scope statement"); ("PRINCE2", "risk register")]
  = ["PMBOK"] /\
  summary_lines "scope" [("PMBOK", "scope statement"); ("PRINCE2", "risk register")] !! 1
  <> Some ("Documents with strongest relevance: "
           +:+ join ", " (strongest "scope" [("PMBOK", "scope statement");
                                             ("PRINCE2", "risk register")])
           +:+ ".").
Proof. split; [|split; [|split]]; by vm_compute. Qed.

Lemma summary_relevance_line_witness :
  exists ranked,
    ranked ≡ₚ overlaps "scope" [("PMBOK", "scope statement"); ("PRINCE2", "risk register")] /\
    StronglySorted (fun a b => b.2 <= a.2) ranked /\
    (forall d rest, ranked = d :: rest ->
       d.2 = top_score "scope" [("PMBOK", "scope statement"); ("PRINCE2", "risk register")]) /\
    summary_lines "scope" [("PMBOK", "scope statement"); ("PRINCE2", "risk register")] !! 1 =
      Some (if 0 <? top_score "scope"
                      [("PMBOK", "scope statement"); ("PRINCE2", "risk register")]
            then "Documents with strongest relevance: " +:+ join ", " ranked.*1 +:+ "."
            else NO_DOMINANT).
Proof.
  apply (summary_relevance_line "scope"
           [("PMBOK", "scope statement"); ("PRINCE2", "risk register")]).
  by apply (bool_decide_unpack _).
Defined.

Lemma synthesize_summary_deterministic_witness :
  synthesize_summary_in first_seen "project scope risk"
    [("PMBOK", "Scope statement (project)."); ("PRINCE2", "risk register, project risk")]
  = synthesize_summary_in last_seen "project scope risk"
      [("PMBOK", "Scope statement (project)."); ("PRINCE2", "risk register, project risk")] /\
  synthesize_summary_in first_seen "project scope risk"
    [("PMBOK", "Scope statement (project)."); ("PRINCE2", "risk register, project risk")]
  = synthesize_summary "project scope risk"
      [("PMBOK", "Scope statement (project)."); ("PRINCE2", "risk register, project risk")] /\
  forall text,
    overlap_in first_seen "project scope risk" text
    = overlap_in last_seen "project scope risk" text.
Proof.
  apply (synthesize_summary_deterministic first_seen last_seen "project scope risk"
           [("PMBOK", "Scope statement (project)."); ("PRINCE2", "risk register, project risk")]).
  - apply first_seen_spec.
  - apply last_seen_spec.
Defined.

(** The two orders do walk the sets differently, and the summary reads the
    insertion order of the dictionary: the same entries inserted the other
    way round give another summary. *)
Lemma summary_reads_insertion_order :
  first_seen (lower <$> long_words "project scope risk")
  <> last_seen (lower <$> long_words "project scope risk") /\
  synthesize_summary "scope" [("PMBOK", "scope statement"); ("PRINCE2", "scope of work")]
  <> synthesize_summary "scope" [("PRINCE2", "scope of work"); ("PMBOK", "scope statement")].
Proof. split; by vm_compute. Qed.

Lemma blank_query_invalid_request_witness :
  api_search Example.files Np.insertion_argsort Example.index
    (Example.request "   " None) = Ok InvalidRequest.
Proof.
  apply (blank_query_invalid_request Example.files Np.insertion_argsort Example.index
           (Example.request "   " None) "   " TOP_K); reflexivity.
Defined.

Lemma missing_document_empty_list_witness :
  exists results summary,
    api_search Example.files Np.insertion_argsort Example.index
      (Example.request "scope" None)
    = Ok (SearchBody "scope" results summary, 200) /\
    dict_find "ISO21500" results = Some [].
Proof.
  apply (missing_document_empty_list Example.files Example.fit Np.insertion_argsort
           Example.fs (PDF_FILES_NoDup "") insertion_argsort_spec Example.index
           (Example.request "scope" None) "scope" TOP_K "ISO21500"
           "../site/ISO21500.pdf").
  - reflexivity.
  - discriminate.
  - reflexivity.
  - reflexivity.
  - reflexivity.
  - by apply (bool_decide_unpack _).
  - reflexivity.
Defined.

Lemma search_top_k_within_document_witness :
  exists results summary,
    api_search Example.files Np.insertion_argsort Example.index
      (Example.request "scope" (Some (JInt 2)))
    = Ok (SearchBody "scope" results summary, 200) /\
    forall key positions,
      dict_find key (doc_page_index Example.index) = Some positions ->
      exists ranked,
        dict_find key results
        = Some (page_item Example.files Example.index
                  (similarities Example.index "scope") key <$> ranked) /\
        ranked ⊆ positions /\
        forall p p', p ∈ ranked -> p' ∈ positions -> p' ∉ ranked ->
          (nth p' (similarities Example.index "scope") 0
           <= nth p (similarities Example.index "scope") 0)%Q.
Proof.
  apply (search_top_k_within_document Example.files Example.fit Np.insertion_argsort
           Example.fs (PDF_FILES_NoDup "") insertion_argsort_spec Example.index
           (Example.request "scope" (Some (JInt 2))) "scope" 2).
  - reflexivity.
  - discriminate.
  - reflexivity.
  - reflexivity.
  - reflexivity.
Defined.

(** * The further properties on the small corpus *)

Lemma health_counts_pages_witness :
  health Example.index
  = ({| status := "ok";
        indexed_pages := sum_list (page_count Example.fs <$> Example.files) |}, 200) /\
  match tfidf_matrix Example.index with
  | Some matrix => length matrix = sum_list (page_count Example.fs <$> Example.files)
  | None => sum_list (page_count Example.fs <$> Example.files) = 0
  end.
Proof.
  apply (health_counts_pages Example.files Example.fit Example.fs (PDF_FILES_NoDup "")
           Example.index).
  reflexivity.
Defined.

Lemma built_texts_normalized_witness :
  exists transform matrix,
    Example.fit (all_texts Example.fs Example.files) = Ok transform /\
    vectorizer Example.index = Some transform /\
    tfidf_matrix Example.index = Some matrix /\
    Forall (fun t => blank t = false) (all_texts Example.fs Example.files) /\
    forall p e, pages_data Example.index !! p = Some e ->
      normalize (text e) = text e /\ strip (text e) = text e /\
      all_texts Example.fs Example.files !! p
        = Some (if truthy (text e) then text e else NO_TEXT) /\
      matrix !! p = Some (transform (if truthy (text e) then text e else NO_TEXT)).
Proof.
  apply (built_texts_normalized Example.files Example.fit Example.fs (PDF_FILES_NoDup "")
           Example.index).
  - reflexivity.
  - discriminate.
Defined.

Lemma search_raises_only_on_request_witness :
  (get_query (Example.request "scope" (Some (JInfinity false))) = Raise OverflowError /\
   OverflowError = AttributeError) \/
  (exists query,
     get_query (Example.request "scope" (Some (JInfinity false))) = Ok query /\
     get_top_k (Example.request "scope" (Some (JInfinity false))) = Raise OverflowError /\
     (OverflowError = ValueError \/ OverflowError = TypeError \/
      OverflowError = OverflowError)).
Proof.
  apply (search_raises_only_on_request Example.files Example.fit Np.insertion_argsort
           Example.fs (PDF_FILES_NoDup "") insertion_argsort_spec Example.index
           (Example.request "scope" (Some (JInfinity false))) OverflowError).
  - reflexivity.
  - reflexivity.
Defined.

Lemma search_score_rounding_witness :
  exists results summary transform matrix,
    api_search Example.files Np.insertion_argsort Example.index
      (Example.request "scope and risk" None)
    = Ok (SearchBody "scope and risk" results summary, 200) /\
    vectorizer Example.index = Some transform /\
    tfidf_matrix Example.index = Some matrix /\
    forall key items item, (key, items) ∈ results -> item ∈ items ->
      exists positions p e row,
        dict_find key (doc_page_index Example.index) = Some positions /\
        positions !! (item_page_no item - 1) = Some p /\
        pages_data Example.index !! p = Some e /\
        doc_key e = key /\ page_no e = item_page_no item /\
        matrix !! p = Some row /\
        (Np.dot (transform "scope and risk") row - (1 # 20000) <= score item
         <= Np.dot (transform "scope and risk") row + (1 # 20000))%Q.
Proof.
  apply (search_score_rounding Example.files Example.fit Np.insertion_argsort
           Example.fs (PDF_FILES_NoDup "") insertion_argsort_spec Example.index
           (Example.request "scope and risk" None) "scope and risk" TOP_K).
  - reflexivity.
  - discriminate.
  - reflexivity.
  - reflexivity.
  - reflexivity.
Defined.

Lemma search_lists_distinct_pages_witness :
  exists results summary,
    api_search Example.files Np.insertion_argsort Example.index
      (Example.request "scope" (Some (JInt 3)))
    = Ok (SearchBody "scope" results summary, 200) /\
    forall key path, (key, path) ∈ Example.files ->
      exists items,
        dict_find key results = Some items /\
        NoDup (item_page_no <$> items) /\
        (forall n, n ∈ item_page_no <$> items ->
           1 <= n <= page_count Example.fs (key, path)) /\
        ((Z.of_nat (page_count Example.fs (key, path)) <= 3)%Z ->
           item_page_no <$> items ≡ₚ seq 1 (page_count Example.fs (key, path))).
Proof.
  apply (search_lists_distinct_pages Example.files Example.fit Np.insertion_argsort
           Example.fs (PDF_FILES_NoDup "") insertion_argsort_spec Example.index
           (Example.request "scope" (Some (JInt 3))) "scope" 3).
  - reflexivity.
  - discriminate.
  - reflexivity.
  - reflexivity.
  - reflexivity.
Defined.

Lemma search_item_link_witness :
  exists results summary,
    api_search Example.files Np.insertion_argsort Example.index
      (Example.request "scope" None)
    = Ok (SearchBody "scope" results summary, 200) /\
    forall key path items item,
      (key, path) ∈ Example.files -> (key, items) ∈ results -> item ∈ items ->
      pdf_link item
      = Os.basename path +:+ "#page=" +:+ str_of_nat (item_page_no item).
Proof.
  apply (search_item_link Example.files Example.fit Np.insertion_argsort
           Example.fs (PDF_FILES_NoDup "") insertion_argsort_spec Example.index
           (Example.request "scope" None) "scope" TOP_K).
  - reflexivity.
  - discriminate.
  - reflexivity.
  - reflexivity.
  - reflexivity.
Defined.

Lemma search_summary_documents_witness :
  exists results snippets,
    api_search Example.files Np.insertion_argsort Example.index
      (Example.request "scope" None)
    = Ok (SearchBody "scope" results (synthesize_summary "scope" snippets), 200) /\
    snippets.*1 = (filter (fun doc => 0 < page_count Example.fs doc) Example.files).*1 /\
    forall key snippet, (key, snippet) ∈ snippets ->
      exists items,
        dict_find key results = Some items /\
        snippet = join " " (text_snippet <$> items).
Proof.
  apply (search_summary_documents Example.files Example.fit Np.insertion_argsort
           Example.fs (PDF_FILES_NoDup "") insertion_argsort_spec Example.index
           (Example.request "scope" None) "scope" TOP_K).
  - reflexivity.
  - discriminate.
  - reflexivity.
  - reflexivity.
  - reflexivity.
Defined.

Lemma search_top_k_zero_witness :
  api_search Example.files Np.insertion_argsort Example.index
    (Example.request "scope" (Some (JInt 0)))
  = Ok (SearchBody "scope" ((fun key => (key, [])) <$> Example.files.*1)
          (join " " (bare_summary "scope")), 200).
Proof.
  apply (search_top_k_zero Example.files Example.fit Np.insertion_argsort
           Example.fs (PDF_FILES_NoDup "") insertion_argsort_spec Example.index
           (Example.request "scope" (Some (JInt 0))) "scope").
  - reflexivity.
  - discriminate.
  - reflexivity.
  - reflexivity.
  - reflexivity.
Defined.

Lemma short_query_no_dominant_witness :
  summary_lines "is it ok" [("PMBOK", "is it ok to start"); ("PRINCE2", "risk register")] !! 1
  = Some NO_DOMINANT.
Proof.
  apply (short_query_no_dominant "is it ok"
           [("PMBOK", "is it ok to start"); ("PRINCE2", "risk register")]).
  by apply (bool_decide_unpack _).
Defined.

Lemma summary_order_stable_witness :
  (forall n,
     filter (fun d => d.2 = n)
       (ranked "scope" [("PMBOK", "risk register"); ("PRINCE2", "scope statement");
                        ("ISO21500", "scope of work")])
     = filter (fun d => d.2 = n)
         (overlaps "scope" [("PMBOK", "risk register"); ("PRINCE2", "scope statement");
                            ("ISO21500", "scope of work")])) /\
  (forall d rest,
     ranked "scope" [("PMBOK", "risk register"); ("PRINCE2", "scope statement");
                     ("ISO21500", "scope of work")] = d :: rest ->
     exists before after,
       overlaps "scope" [("PMBOK", "risk register"); ("PRINCE2", "scope statement");
                         ("ISO21500", "scope of work")] = before ++ d :: after /\
       Forall (fun d' => d'.2 < d.2) before /\
       Forall (fun d' => d'.2 <= d.2) after).
Proof.
  apply (summary_order_stable "scope"
           [("PMBOK", "risk register"); ("PRINCE2", "scope statement");
            ("ISO21500", "scope of work")]).
  by apply (bool_decide_unpack _).
Defined.

Lemma overlap_skips_punctuated_words_witness :
  starts_with punctuation "scope" = false /\ ends_with punctuation "scope" = false.
Proof.
  apply (overlap_skips_punctuated_words "project scope" "(scope) statement." "scope").
  apply (bool_decide_unpack _). vm_compute. reflexivity.
Defined.
